(** * QuantumAI translator: the translation provider, the upload form and
      the side-by-side viewer

    A shallow embedding of [TranslationContext] (history, API configuration,
    the OCR / translation request pipeline), of the [Upload] form handlers and
    of the scroll synchronisation of the [Translation] viewer.

    Conventions of the embedding:
    - JavaScript strings are [string]s holding their UTF-8 bytes;
    - an [async] function is a computation in the monad [M]: every [await]
      is a sequencing point, a rejected promise is a thrown value;
    - the browser and the network are an explicit environment [Env];
    - the Numbers of the image geometry are IEEE 754 doubles: finite ones
      are the rationals they denote, and every arithmetic operation rounds
      its exact result to the nearest double ([Number]); the constants 0.6
      and 0.3, which are only handed on to the browser and to the server,
      are written as the decimal fractions of the source;
    - the scroll positions of the viewer are exact rationals: what the
      browser makes of an assignment to [scrollTop] is not modelled. *)

From Stdlib Require Import Ascii String ZArith QArith Qminmax Qround Qpower.
From Stdlib Require Import Lia Lqa.
From stdpp Require Import base strings list gmap pretty.

Set Warnings "-register-all".
Open Scope string_scope.

(** ** Strings *)

Module Str.

Definition code (c : ascii) : nat := nat_of_ascii c.

(** ASCII case folding, which is all that the [i] flag of a pattern made
    of ASCII letters can observe. *)
Definition lower (c : ascii) : ascii :=
  if (65 <=? code c)%nat && (code c <=? 90)%nat
  then ascii_of_nat (code c + 32) else c.

Definition eqb_ci (a b : ascii) : bool := Ascii.eqb (lower a) (lower b).

(** [prefix_ci p s]: [p] matches at the start of [s], ignoring case. *)
Fixpoint prefix_ci (p s : string) : bool :=
  match p, s with
  | EmptyString, _ => true
  | String _ _, EmptyString => false
  | String a p', String b s' => eqb_ci a b && prefix_ci p' s'
  end.

(** [contains_ci p s]: [p] matches somewhere in [s], ignoring case. *)
Fixpoint contains_ci (p s : string) : bool :=
  prefix_ci p s ||
  match s with
  | EmptyString => false
  | String _ s' => contains_ci p s'
  end.

(** The ASCII members of the ECMAScript WhiteSpace and LineTerminator
    classes: TAB, LF, VT, FF, CR and SPACE. *)
Definition ascii_space (c : ascii) : bool :=
  let n := code c in
  ((9 <=? n)%nat && (n <=? 13)%nat) || (n =? 32)%nat.

(** The UTF-8 encodings of the other members: U+00A0, U+1680,
    U+2000..U+200A, U+2028, U+2029, U+202F, U+205F, U+3000, U+FEFF. *)
Definition space2 (a b : ascii) : bool :=
  (code a =? 194)%nat && (code b =? 160)%nat.

Definition space3 (a b c : ascii) : bool :=
  let '(x, y, z) := (code a, code b, code c) in
  ((x =? 225) && (y =? 154) && (z =? 128))%nat
  || ((x =? 226) && (y =? 128)
      && (((128 <=? z) && (z <=? 138)) || (z =? 168) || (z =? 169) || (z =? 175)))%nat
  || ((x =? 226) && (y =? 129) && (z =? 159))%nat
  || ((x =? 227) && (y =? 128) && (z =? 128))%nat
  || ((x =? 239) && (y =? 187) && (z =? 191))%nat.

(** [blank s] holds exactly when [s.trim()] is the empty string, that is
    when [s] consists of white space only. *)
Fixpoint blank (s : string) : bool :=
  match s with
  | EmptyString => true
  | String a r =>
      if ascii_space a then blank r
      else
        match r with
        | String b r' =>
            if space2 a b then blank r'
            else
              match r' with
              | String c r'' => if space3 a b c then blank r'' else false
              | EmptyString => false
              end
        | EmptyString => false
        end
  end.

(** [s.replace(/\/$/, '')]: one trailing slash, if there is one, is
    dropped. *)
Fixpoint strip_trailing_slash (s : string) : string :=
  match s with
  | EmptyString => EmptyString
  | String a r =>
      match r with
      | EmptyString => if Ascii.eqb a "/" then EmptyString else s
      | String _ _ => String a (strip_trailing_slash r)
      end
  end.

(** A JavaScript string is falsy exactly when it is empty. *)
Definition truthy (s : string) : bool :=
  match s with EmptyString => false | String _ _ => true end.

End Str.

(** ** Patterns of [validateGPTResponse] *)

Module Regex.

(** The fragment of regular expressions the source uses: literals,
    concatenation and alternation, always with the [i] flag. *)
Inductive regex :=
| Lit (s : string)
| Seq (a b : regex)
| Alt (a b : regex).

(** The finite set of words of a pattern. *)
Fixpoint words (r : regex) : list string :=
  match r with
  | Lit s => [s]
  | Seq a b => x ← words a; (λ y, x ++ y) <$> words b
  | Alt a b => words a ++ words b
  end.

(** [pattern.test(s)] for an unanchored, case-insensitive pattern. *)
Definition test (r : regex) (s : string) : bool :=
  existsb (λ w, Str.contains_ci w s) (words r).

End Regex.

(** ** Numbers *)

Module Number.

(** A finite JavaScript Number is a double: a rational [m * 2^e] whose
    mantissa [m] has at most 53 bits.  The result of a multiplication or a
    division is the exact result rounded to the nearest double, and to the
    one with the even mantissa when two doubles are equally near.  Doubles
    are kept as fractions in lowest terms.  The range of the exponent is
    not limited: in the image geometry, where the sides of an image are
    below 2^32, no result overflows or is subnormal. *)

(** [floor (log2 x)] for a positive fraction [x]. *)
Definition ilog2 (x : Q) : Z :=
  let k := (Z.log2 (Qnum x) - Z.log2 (Zpos (Qden x)))%Z in
  if Qle_bool (2 ^ k) x then k else (k - 1)%Z.

(** The integer nearest to [y]; of two that are equally near, the even
    one. *)
Definition nearest_even (y : Q) : Z :=
  let f := Qfloor y in
  match (y - inject_Z f ?= 1 # 2)%Q with
  | Lt => f
  | Gt => (f + 1)%Z
  | Eq => if Z.even f then f else (f + 1)%Z
  end.

(** The double nearest to a positive [x]: [x] is scaled into the range from
    2^52 to 2^53, rounded to an integer and scaled back. *)
Definition round_pos (x : Q) : Q :=
  let e := (ilog2 x - 52)%Z in
  Qred (inject_Z (nearest_even (x / 2 ^ e)) * 2 ^ e).

Definition round (x : Q) : Q :=
  let x := Qred x in
  match (x ?= 0)%Q with
  | Eq => 0%Q
  | Gt => round_pos x
  | Lt => (- round_pos (- x))%Q
  end.

(** [a * b] and [a / b] on Numbers, for a divisor that is not zero. *)
Definition mul (a b : Q) : Q := round (a * b).
Definition div (a b : Q) : Q := round (a / b).

(** The conversion of a finite Number to the [unsigned long] of a DOM
    attribute: its integer part, modulo 2^32. *)
Definition to_unsigned_long (x : Q) : Z :=
  (Z.quot (Qnum x) (Zpos (Qden x)) mod 2 ^ 32)%Z.

End Number.

(** ** Data model *)

Record Translation := mkTranslation {
  id : string;
  fileName : string;
  timestamp : string;
  originalText : string;
  translatedText : string;
  targetLanguage : string;
}.

Record GPTConfig := mkGPTConfig {
  apiKey : string;
  baseUrl : string;
}.

Global Instance Translation_eq_dec : EqDecision Translation.
Proof. solve_decision. Defined.

Global Instance GPTConfig_eq_dec : EqDecision GPTConfig.
Proof. solve_decision. Defined.

Definition MAX_IMAGE_SIZE : Q := 800.
Definition JPEG_QUALITY : Q := 6 # 10.
Definition MAX_FILE_SIZE : Z := 5 * 1024 * 1024.

(** ** JSON serialisation *)

Module JSON.

Inductive json :=
| JStr (s : string)
| JArr (l : list json)
| JObj (l : list (string * json)).

Definition dquote : ascii := ascii_of_nat 34.
Definition backslash : ascii := ascii_of_nat 92.

Definition hex_digit (n : nat) : ascii :=
  ascii_of_nat (if (n <? 10)%nat then 48 + n else 87 + n).

(** Escaping of one character by [JSON.stringify]. *)
Definition escape (c : ascii) : string :=
  let n := Str.code c in
  if (n =? 34)%nat then String backslash (String dquote "")
  else if (n =? 92)%nat then "\\"
  else if (n =? 8)%nat then "\b"
  else if (n =? 12)%nat then "\f"
  else if (n =? 10)%nat then "\n"
  else if (n =? 13)%nat then "\r"
  else if (n =? 9)%nat then "\t"
  else if (n <? 32)%nat
       then "\u00" ++ String (hex_digit (n / 16)) (String (hex_digit (n mod 16)) "")
  else String c "".

Fixpoint escape_all (s : string) : string :=
  match s with
  | EmptyString => EmptyString
  | String c r => escape c ++ escape_all r
  end.

Definition quote (s : string) : string :=
  String dquote (escape_all s) ++ String dquote "".

Fixpoint stringify (v : json) : string :=
  match v with
  | JStr s => quote s
  | JArr l =>
      "[" ++
      (fix elems (l : list json) : string :=
         match l with
         | [] => ""
         | x :: r =>
             stringify x ++ match r with [] => "" | _ :: _ => "," ++ elems r end
         end) l
      ++ "]"
  | JObj l =>
      "{" ++
      (fix members (l : list (string * json)) : string :=
         match l with
         | [] => ""
         | (k, x) :: r =>
             quote k ++ ":" ++ stringify x
             ++ match r with [] => "" | _ :: _ => "," ++ members r end
         end) l
      ++ "}"
  end.

(** What the generic [<T,>] of the storage helpers needs of [T]. *)
Class ToJSON (T : Type) := to_json : T → json.

Global Instance string_to_json : ToJSON string := JStr.

Global Instance list_to_json {T} `{ToJSON T} : ToJSON (list T) :=
  λ l, JArr (to_json <$> l).

Global Instance Translation_to_json : ToJSON Translation := λ t,
  JObj [("id", JStr (id t)); ("fileName", JStr (fileName t));
        ("timestamp", JStr (timestamp t));
        ("originalText", JStr (originalText t));
        ("translatedText", JStr (translatedText t));
        ("targetLanguage", JStr (targetLanguage t))].

Global Instance GPTConfig_to_json : ToJSON GPTConfig := λ c,
  JObj [("apiKey", JStr (apiKey c)); ("baseUrl", JStr (baseUrl c))].

Definition JSON_stringify {T} `{ToJSON T} (value : T) : string :=
  stringify (to_json value).

End JSON.
Import JSON.

(** ** The chat-completion API, as far as the provider looks into it *)

Module Api.

(** The response body is [any] in the source; it is read through
    [response?.choices?.[0]?.message?.content] only, so [None] stands for
    a part that is [null], [undefined] or absent. *)
Record Message := { content : option string }.
Record Choice := { message : option Message }.
Record ChatCompletion := { choices : option (list Choice) }.

Inductive ContentPart :=
| text (s : string)
| image_url (url : string).

Inductive Content :=
| Text (s : string)
| Parts (l : list ContentPart).

Record ChatMessage := { role : string; body : Content }.

Record Payload := {
  model : string;
  messages : list ChatMessage;
  temperature : Q;
  max_tokens : Z;
}.

Record Request := {
  url : string;
  payload : Payload;
  headers : list (string * string);
  timeout : Z;
}.

End Api.

Module Axios.

(** [error.response.data?.error?.message].  An error of axios has a
    [response] when the server answered; its [code] is [ECONNABORTED] when
    the request timed out or was aborted. *)
Record ApiError := { message : option string }.
Record ErrorData := { error : option ApiError }.
Record Response := { status : Z; data : option ErrorData }.
Record AxiosError := { code : option string; response : option Response }.

(** How the promise of [axios.post] settles. *)
Inductive Settled :=
| Fulfilled (data : option Api.ChatCompletion)
| RejectedAxios (e : AxiosError)
| RejectedOther.

End Axios.

(** ** The browser *)

Module Dom.

Record File := { name : string; size : Z }.

(** [img.width] and [img.height] are [unsigned long]: whole numbers below
    2^32. *)
Record Image := { width : N; height : N }.

(** [ctx.drawImage(img, dx, dy, dw, dh)], whose arguments are Numbers. *)
Record Draw := { img : Image; dx : Q; dy : Q; dw : Q; dh : Q }.

(** [canvas.width] and [canvas.height] are [unsigned long]: a canvas has
    whole pixels. *)
Record Canvas := {
  canvas_width : Z;
  canvas_height : Z;
  drawn : list Draw;
}.

(** [localStorage]: a key-value store with a capacity; [setItem] throws
    once the stored keys and values would exceed it. *)
Record Storage := { items : gmap string string; quota : N }.

Definition weight (s : string) : N := N.of_nat (String.length s).

Definition used (m : gmap string string) : N :=
  map_fold (λ k v n, weight k + weight v + n)%N 0%N m.

Definition setItem (key value : string) (st : Storage) : option Storage :=
  let m := <[key := value]> (items st) in
  if decide (used m ≤ quota st)%N
  then Some {| items := m; quota := quota st |}
  else None.

Definition getItem (key : string) (st : Storage) : option string :=
  items st !! key.

End Dom.

(** What the provider asks of its surroundings.  [axios_post n req] is how
    the [n]-th request of the session settles; [Date_now n] and
    [toISOString n] are the [n]-th reading of the clock. *)
Record Env := {
  axios_post : nat → Api.Request → Axios.Settled;
  readAsDataURL : Dom.File → option string;
  decode : string → option Dom.Image;
  getContext : Dom.Canvas → bool;
  toDataURL : Dom.Canvas → string → Q → string;
  Date_now : nat → Z;
  toISOString : nat → string;
}.

(** ** State, exceptions and the monad of asynchronous handlers *)

Inductive Exn :=
| Error (message : string)
| NotAnError.

Inductive Result (A : Type) :=
| Ok (a : A)
| Throw (e : Exn).
Arguments Ok {A} a.
Arguments Throw {A} e.

Inductive Event :=
| Compressed (file : Dom.File) (r : Result string)
| Sent (req : Api.Request)
| Settled (o : Axios.Settled).

Record Sys := mkSys {
  translations : list Translation;
  gptConfig : GPTConfig;
  localStorage : Dom.Storage;
  console : list string;
  trace : list Event;
  requests : nat;
  clock : nat;
}.

Definition M (A : Type) : Type := Sys → Result A * Sys.

Global Instance M_ret : MRet M := λ A a s, (Ok a, s).

Global Instance M_bind : MBind M := λ A B f m s,
  match m s with
  | (Ok a, s') => f a s'
  | (Throw e, s') => (Throw e, s')
  end.

Definition throw {A} (e : Exn) : M A := λ s, (Throw e, s).

(** [try { body } catch (error) { handler error }] *)
Definition try_catch {A} (body : M A) (handler : Exn → M A) : M A := λ s,
  match body s with
  | (Ok a, s') => (Ok a, s')
  | (Throw e, s') => handler e s'
  end.

Definition lift {A} (r : Result A) : M A := λ s, (r, s).

Definition get : M Sys := λ s, (Ok s, s).

Definition set_translations (l : list Translation) (s : Sys) : Sys :=
  mkSys l (gptConfig s) (localStorage s) (console s) (trace s) (requests s)
    (clock s).

Definition set_gptConfig (c : GPTConfig) (s : Sys) : Sys :=
  mkSys (translations s) c (localStorage s) (console s) (trace s) (requests s)
    (clock s).

Definition set_localStorage (st : Dom.Storage) (s : Sys) : Sys :=
  mkSys (translations s) (gptConfig s) st (console s) (trace s) (requests s)
    (clock s).

Definition set_console (lines : list string) (s : Sys) : Sys :=
  mkSys (translations s) (gptConfig s) (localStorage s) lines (trace s)
    (requests s) (clock s).

Definition set_trace (tr : list Event) (s : Sys) : Sys :=
  mkSys (translations s) (gptConfig s) (localStorage s) (console s) tr
    (requests s) (clock s).

Definition set_requests (n : nat) (s : Sys) : Sys :=
  mkSys (translations s) (gptConfig s) (localStorage s) (console s) (trace s)
    n (clock s).

Definition set_clock (n : nat) (s : Sys) : Sys :=
  mkSys (translations s) (gptConfig s) (localStorage s) (console s) (trace s)
    (requests s) n.

Definition logged (e : Event) (s : Sys) : Sys := set_trace (trace s ++ [e]) s.

Definition log (e : Event) : M unit := λ s, (Ok tt, logged e s).

(** Reading the clock. *)
Definition tick : M nat := λ s, (Ok (clock s), set_clock (S (clock s)) s).

Definition console_error (line : string) : M unit := λ s,
  (Ok tt, set_console (console s ++ [line]) s).

(** The requests of a trace, in the order they were issued. *)
Definition sent (tr : list Event) : list Api.Request :=
  omap (λ e, match e with Sent r => Some r | _ => None end) tr.

(** ** The translation provider *)

Definition save_failure : string := "保存到 localStorage 失败:".

(** [saveToStorage]: a failing [setItem] is caught and only reported on the
    console. *)
Definition saveToStorage {T} `{ToJSON T} (key : string) (value : T) : M unit :=
  λ s,
    match Dom.setItem key (JSON_stringify value) (localStorage s) with
    | Some st => (Ok tt, set_localStorage st s)
    | None => console_error save_failure s
    end.

(** The state hooks.  A state update is followed by a render, after which the
    effect that depends on the updated value runs. *)
Definition setTranslations (update : list Translation → list Translation)
  : M unit :=
  λ s,
    let next := update (translations s) in
    saveToStorage "translations" next (set_translations next s).

Definition setGPTConfig (next : GPTConfig) : M unit :=
  λ s, saveToStorage "gptConfig" next (set_gptConfig next s).

Definition addTranslation (translation : Translation) : M unit :=
  setTranslations (λ prev, translation :: prev).

Definition removeTranslation (i : string) : M unit :=
  setTranslations (λ prev, filter (λ t, id t ≠ i) prev).

Definition updateGPTConfig (config : GPTConfig) : M unit :=
  let normalizedBaseUrl := Str.strip_trailing_slash (baseUrl config) in
  setGPTConfig {| apiKey := apiKey config; baseUrl := normalizedBaseUrl |}.

(** The first render: both effects run once on the initial state. *)
Definition mount (history : list Translation) (config : GPTConfig)
  (st : Dom.Storage) : Sys :=
  let s0 := mkSys history config st [] [] 0 0 in
  let s1 := snd (saveToStorage "translations" history s0) in
  snd (saveToStorage "gptConfig" config s1).

Definition rejectPatterns : list Regex.regex :=
  let lit := Regex.Lit in
  [ Regex.Seq (lit "I") (Regex.Seq (Regex.Alt (lit "'m") (lit " am")) (lit " sorry"));
    Regex.Alt (lit "I cannot") (lit "I can't");
    lit "unable to";
    Regex.Seq (lit "not ") (Regex.Seq (Regex.Alt (lit "able") (lit "allowed")) (lit " to")) ].

(** [response?.choices?.[0]?.message?.content] *)
Definition first_content (response : option Api.ChatCompletion)
  : option string :=
  data ← response;
  choices ← Api.choices data;
  choice ← head choices;
  message ← Api.message choice;
  Api.content message.

Definition validateGPTResponse (response : option Api.ChatCompletion)
  : Result string :=
  match first_content response with
  | None => Throw (Error "API 返回的响应格式无效")
  | Some content =>
      if negb (Str.truthy content)
      then Throw (Error "API 返回的响应格式无效")
      else if existsb (λ pattern, Regex.test pattern content) rejectPatterns
      then Throw (Error "模型无法处理该请求，请重试")
      else Ok content
  end.

(** [options.model || d] and [options.max_tokens || d] *)
Definition or_string (o : option string) (d : string) : string :=
  match o with
  | Some v => if Str.truthy v then v else d
  | None => d
  end.

Definition or_number (o : option Z) (d : Z) : Z :=
  match o with
  | Some v => if (v =? 0)%Z then d else v
  | None => d
  end.

(** [response.data?.error?.message] *)
Definition server_message (response : Axios.Response) : option string :=
  data ← Axios.data response;
  error ← Axios.error data;
  Axios.message error.

Record Options := { max_tokens : option Z; model : option string }.

Definition no_options : Options := {| max_tokens := None; model := None |}.

Definition translation_prompt (targetLanguage : string) : string :=
  "你是一位专业翻译。请将以下文本翻译成" ++ targetLanguage ++ "。
重要提示：
1. 必须严格保持原文的所有格式，包括换行、空格、缩进等
2. 不要改变原文的段落结构和布局
3. 保持专业术语的准确性
4. 确保翻译自然、地道
5. 不要添加任何额外的解释或注释
6. 直接返回翻译结果，不要包含任何其他内容".

Definition ocr_prompt : string :=
  "你是一位专业的 OCR 专家。请提取图片中的文字。
重要提示：
1. 必须严格保持原文的所有格式，包括换行、空格、缩进等
2. 保持段落结构和文本布局
3. 不要添加任何解释或修改
4. 只返回提取的原始文字，不要包含任何其他内容
5. 如果图片中没有文字，请返回空字符串".

Definition translation_messages (targetLanguage text : string)
  : list Api.ChatMessage :=
  [ {| Api.role := "system"; Api.body := Api.Text (translation_prompt targetLanguage) |};
    {| Api.role := "user"; Api.body := Api.Text text |} ].

Definition ocr_messages (base64Image : string) : list Api.ChatMessage :=
  [ {| Api.role := "system"; Api.body := Api.Text ocr_prompt |};
    {| Api.role := "user";
       Api.body := Api.Parts
         [ Api.text "请提取这张图片中的所有文字，保持原有格式：";
           Api.image_url base64Image ] |} ].

(** [Math.min(1, MAX_IMAGE_SIZE / Math.max(width, height))]; dividing by zero
    gives [Infinity] in JavaScript, where the minimum is 1. *)
Definition scale_of (width height : Q) : Q :=
  if Qeq_bool (Qmax width height) 0 then 1
  else Qmin 1 (Number.div MAX_IMAGE_SIZE (Qmax width height)).

Definition of_nat (n : nat) : Q := inject_Z (Z.of_nat n).
Definition of_N (n : N) : Q := inject_Z (Z.of_N n).

Definition data_url_prefix : string := "data:image/jpeg;base64,".

Definition compressedSize (base64 : string) : Z :=
  Qceiling ((of_nat (String.length base64)
             - of_nat (String.length data_url_prefix)) * (75 # 100)).

(** The canvas of [compressImage] after [drawImage]: [width *= scale] and
    [height *= scale] are multiplications of Numbers, the assignments to
    [canvas.width] and [canvas.height] keep their integer parts, and
    [drawImage] is given the Numbers themselves. *)
Definition scaled_canvas (img : Dom.Image) : Dom.Canvas :=
  let width := of_N (Dom.width img) in
  let height := of_N (Dom.height img) in
  let scale := scale_of width height in
  let width := Number.mul width scale in
  let height := Number.mul height scale in
  {| Dom.canvas_width := Number.to_unsigned_long width;
     Dom.canvas_height := Number.to_unsigned_long height;
     Dom.drawn := [ {| Dom.img := img; Dom.dx := 0; Dom.dy := 0;
                       Dom.dw := width; Dom.dh := height |} ] |}.

Definition blank_canvas (c : Dom.Canvas) : Dom.Canvas :=
  {| Dom.canvas_width := Dom.canvas_width c;
     Dom.canvas_height := Dom.canvas_height c; Dom.drawn := [] |}.

Definition as_Error (fallback : string) (error : Exn) : Exn :=
  match error with
  | Error _ => error
  | NotAnError => Error fallback
  end.

Definition ocr_options : Options :=
  {| max_tokens := Some 1000%Z; model := Some "gpt-4o" |}.

(** [awaited tr]: in [tr] every request is followed at once by its
    settling, so no request is issued while another one is pending. *)
Fixpoint awaited (tr : list Event) : bool :=
  match tr with
  | [] => true
  | Compressed _ _ :: rest => awaited rest
  | Sent _ :: rest =>
      match rest with
      | Settled _ :: rest' => awaited rest'
      | _ => false
      end
  | Settled _ :: _ => false
  end.

(** The state once a request has been issued and has settled. *)
Definition posted (req : Api.Request) (o : Axios.Settled) (s : Sys) : Sys :=
  set_requests (S (requests s)) (set_trace (trace s ++ [Sent req; Settled o]) s).

Section Provider.

Context (env : Env).

(** [await axios.post(...)]: the request is issued, then the handler waits
    until it settles. *)
Definition post (req : Api.Request) : M Axios.Settled := λ s,
  let o := axios_post env (requests s) req in
  (Ok o, posted req o s).

Definition compress (file : Dom.File) : Result string :=
  if (MAX_FILE_SIZE <? Dom.size file)%Z
  then Throw (Error "图片大小不能超过 5MB")
  else
    match readAsDataURL env file with
    | None => Throw (Error "文件读取失败")
    | Some src =>
        match decode env src with
        | None => Throw (Error "图片加载失败")
        | Some img =>
            let canvas := scaled_canvas img in
            if negb (getContext env (blank_canvas canvas))
            then Throw (Error "无法创建Canvas上下文")
            else
              let base64 := toDataURL env canvas "image/jpeg" JPEG_QUALITY in
              if (MAX_FILE_SIZE <? compressedSize base64)%Z
              then Throw (Error "压缩后图片仍然过大，请使用更小的图片")
              else Ok base64
        end
    end.

(** [compressImage] touches no state of the provider; its settling is
    recorded in the trace. *)
Definition compressImage (file : Dom.File) : M string := λ s,
  let r := compress file in
  (r, logged (Compressed file r) s).

Definition request_for (config : GPTConfig) (messages : list Api.ChatMessage)
  (options : Options) : Api.Request :=
  {| Api.url := baseUrl config ++ "/v1/chat/completions";
     Api.payload :=
       {| Api.model := or_string (model options) "gpt-4o-mini";
          Api.messages := messages;
          Api.temperature := 3 # 10;
          Api.max_tokens := or_number (max_tokens options) 2000 |};
     Api.headers :=
       [ ("Content-Type", "application/json");
         ("Authorization", "Bearer " ++ apiKey config) ];
     Api.timeout := 30000 |}.

(** The [catch] clause of [makeGPTRequest]. *)
Definition request_error (o : Axios.Settled) : Exn :=
  match o with
  | Axios.RejectedAxios error =>
      match Axios.response error with
      | None => Error "无法连接到服务器，请检查网络连接"
      | Some response =>
          if decide (Axios.code error = Some "ECONNABORTED")
          then Error "请求超时，请重试"
          else if (Axios.status response =? 401)%Z
          then Error "API Key 无效或已过期"
          else if (Axios.status response =? 403)%Z
          then Error "API Key 无访问权限"
          else if (Axios.status response =? 429)%Z
          then Error "请求过于频繁，请稍后重试"
          else if (500 <=? Axios.status response)%Z
          then Error "服务器错误，请稍后重试"
          else Error (or_string (server_message response) "请求失败，请重试")
      end
  | _ => Error "发生未知错误，请重试"
  end.

Definition makeGPTRequest (messages : list Api.ChatMessage)
  (options : Options) : M (option Api.ChatCompletion) :=
  s ← get;
  response ← post (request_for (gptConfig s) messages options);
  match response with
  | Axios.Fulfilled data => mret data
  | failed => throw (request_error failed)
  end.

(** The record built from the readings [n] and [m] of the clock:
    [Date.now().toString()] and [new Date().toISOString()]. *)
Definition stamp (fileName originalText translatedText targetLanguage : string)
  (n m : nat) : Translation :=
  {| id := pretty (Date_now env n); fileName := fileName;
     timestamp := toISOString env m; originalText := originalText;
     translatedText := translatedText; targetLanguage := targetLanguage |}.

Definition new_translation (fileName originalText translatedText
  targetLanguage : string) : M Translation :=
  n ← tick;
  m ← tick;
  mret (stamp fileName originalText translatedText targetLanguage n m).

(** [if (error instanceof Error) throw error; throw new Error(fallback)] *)
Definition rethrow (fallback : string) (error : Exn) : M Translation :=
  throw (as_Error fallback error).

Definition processText (text targetLanguage : string) : M Translation :=
  s ← get;
  if negb (Str.truthy (apiKey (gptConfig s)))
  then throw (Error "请先配置 API Key")
  else
    try_catch
      (result ← makeGPTRequest (translation_messages targetLanguage text)
                  no_options;
       translatedText ← lift (validateGPTResponse result);
       translation ← new_translation "文本翻译" text translatedText
                       targetLanguage;
       _ ← addTranslation translation;
       mret translation)
      (rethrow "翻译过程中发生错误，请重试").

Definition extractTextFromImage (base64Image : string) : M string :=
  result ← makeGPTRequest (ocr_messages base64Image) ocr_options;
  lift (validateGPTResponse result).

Definition processFile (file : Dom.File) (targetLanguage : string)
  : M Translation :=
  s ← get;
  if negb (Str.truthy (apiKey (gptConfig s)))
  then throw (Error "请先配置 API Key")
  else
    try_catch
      (base64Image ← compressImage file;
       originalText ← extractTextFromImage base64Image;
       if Str.blank originalText
       then throw (Error "未能从图片中提取到文字，请确保图片包含清晰的文本")
       else
         result ← makeGPTRequest
                    (translation_messages targetLanguage originalText)
                    no_options;
         translatedText ← lift (validateGPTResponse result);
         translation ← new_translation (Dom.name file) originalText
                         translatedText targetLanguage;
         _ ← addTranslation translation;
         mret translation)
      (rethrow "处理图片时发生错误，请重试").

End Provider.

(** ** The upload form *)

Module Upload.

Record State := mkState {
  targetLanguage : string;
  isProcessing : bool;
  error : option string;
  inputText : string;
  location : string;
}.

Definition UI_MAX_SIZE : Z := 20 * 1024 * 1024.

Definition setError (e : option string) (u : State) : State :=
  mkState (targetLanguage u) (isProcessing u) e (inputText u) (location u).

Definition setIsProcessing (b : bool) (u : State) : State :=
  mkState (targetLanguage u) b (error u) (inputText u) (location u).

Definition navigate (path : string) (u : State) : State :=
  mkState (targetLanguage u) (isProcessing u) (error u) (inputText u) path.

(** The [try] / [catch] / [finally] shared by both handlers. *)
Definition settle (u : State) (r : Result Translation) : State :=
  setIsProcessing false
    match r with
    | Ok translation => navigate ("/translation/" ++ id translation) u
    | Throw (Error message) => setError (Some message) u
    | Throw NotAnError =>
        setError (Some "处理失败，请检查 API 设置和网络连接") u
    end.

Section Handlers.

Context (env : Env).

Definition onDrop (acceptedFiles : list Dom.File) (u : State) (s : Sys)
  : State * Sys :=
  match head acceptedFiles with
  | None => (u, s)
  | Some file =>
      if (UI_MAX_SIZE <? Dom.size file)%Z
      then (setError (Some "文件大小不能超过 20MB") u, s)
      else
        let u := setError None (setIsProcessing true u) in
        let '(r, s) := processFile env file (targetLanguage u) s in
        (settle u r, s)
  end.

Definition handleTextTranslation (u : State) (s : Sys) : State * Sys :=
  if Str.blank (inputText u)
  then (setError (Some "请输入需要翻译的文本") u, s)
  else
    let u := setError None (setIsProcessing true u) in
    let '(r, s) := processText env (inputText u) (targetLanguage u) s in
    (settle u r, s).

End Handlers.

End Upload.

(** ** The side-by-side viewer *)

Module Viewer.

(** The scroll geometry of a [pre] element. *)
Record Pane := mkPane {
  scrollTop : Q;
  scrollHeight : Q;
  clientHeight : Q;
}.

Record State := { original : Pane; translated : Pane }.

Definition range (p : Pane) : Q := (scrollHeight p - clientHeight p)%Q.

(** The relative scroll position of a pane. *)
Definition position (p : Pane) : Q := (scrollTop p / range p)%Q.

(** Returns [targetRef] after the assignment to its [scrollTop]. *)
Definition syncScroll (sourceRef targetRef : Pane) : Pane :=
  let percentage :=
    (scrollTop sourceRef / (scrollHeight sourceRef - clientHeight sourceRef))%Q in
  mkPane (percentage * (scrollHeight targetRef - clientHeight targetRef))%Q
    (scrollHeight targetRef) (clientHeight targetRef).

Definition handleOriginalScroll (v : State) : State :=
  {| original := original v;
     translated := syncScroll (original v) (translated v) |}.

Definition handleTranslatedScroll (v : State) : State :=
  {| original := syncScroll (translated v) (original v);
     translated := translated v |}.

(** The mounted component: whether the two panes are in the document (the
    translation of the route was found when it last rendered) and whether
    the two scroll listeners are attached to them. *)
Record Component := mkComponent {
  shown : bool;
  listening : bool;
  panes : State;
}.

(** The first render, then the effect: [addEventListener] is called when
    both refs are set, that is when the panes were rendered. *)
Definition mount (found : bool) (p : State) : Component :=
  {| shown := found; listening := found; panes := p |}.

(** A later render of the same component, for another [id] or another
    history.  The effect has an empty dependency list and does not run
    again; panes that leave the document are gone with their listeners. *)
Definition rerender (found : bool) (p : State) (c : Component) : Component :=
  {| shown := found; listening := listening c && found; panes := p |}.

Definition scrolled (y : Q) (p : Pane) : Pane :=
  mkPane y (scrollHeight p) (clientHeight p).

(** The user scrolls a pane to [y]; the scroll event runs the handler if it
    is attached. *)
Definition scrollOriginal (y : Q) (c : Component) : Component :=
  let v := {| original := scrolled y (original (panes c));
              translated := translated (panes c) |} in
  {| shown := shown c; listening := listening c;
     panes := if listening c then handleOriginalScroll v else v |}.

Definition scrollTranslated (y : Q) (c : Component) : Component :=
  let v := {| original := original (panes c);
              translated := scrolled y (translated (panes c)) |} in
  {| shown := shown c; listening := listening c;
     panes := if listening c then handleTranslatedScroll v else v |}.

End Viewer.

(** ** Operations and persistence *)

(** The operations of the provider that can change its state. *)
Inductive Op :=
| AddTranslation (translation : Translation)
| RemoveTranslation (i : string)
| UpdateGPTConfig (config : GPTConfig)
| ProcessText (text targetLanguage : string)
| ProcessFile (file : Dom.File) (targetLanguage : string).

Definition run (env : Env) (op : Op) (s : Sys) : Sys :=
  match op with
  | AddTranslation translation => snd (addTranslation translation s)
  | RemoveTranslation i => snd (removeTranslation i s)
  | UpdateGPTConfig config => snd (updateGPTConfig config s)
  | ProcessText text targetLanguage => snd (processText env text targetLanguage s)
  | ProcessFile file targetLanguage => snd (processFile env file targetLanguage s)
  end.

(** The key [translations], respectively [gptConfig], of local storage
    holds the serialisation of the history, respectively of the
    configuration, in memory. *)
Definition saved_translations (s : Sys) : Prop :=
  Dom.getItem "translations" (localStorage s)
  = Some (JSON_stringify (translations s)).

Definition saved_gptConfig (s : Sys) : Prop :=
  Dom.getItem "gptConfig" (localStorage s)
  = Some (JSON_stringify (gptConfig s)).

(** Local storage holds the serialisation of the state in memory. *)
Definition synced (s : Sys) : Prop :=
  Dom.getItem "translations" (localStorage s)
  = Some (JSON_stringify (translations s))
  ∧ Dom.getItem "gptConfig" (localStorage s)
    = Some (JSON_stringify (gptConfig s)).

(** How local storage and the console may differ between [s] and [s']: only
    the two keys of the provider are written; storage stays in step with the
    state unless a failed save was reported on the console, in which case
    storage is what it was. *)
Definition write_through (s s' : Sys) : Prop :=
  (∀ k, k ≠ "translations" → k ≠ "gptConfig" →
        Dom.getItem k (localStorage s') = Dom.getItem k (localStorage s))
  ∧ (synced s → console s' = console s → synced s')
  ∧ (console s' ≠ console s →
     localStorage s' = localStorage s
     ∧ console s' = (console s ++ [save_failure])%list).

(** The two keys, one by one, over a step that reports no failed save: a
    key that held the serialisation of its part of the state still does,
    and a part of the state that has changed has been saved. *)
Definition keys_follow (s s' : Sys) : Prop :=
  console s' = console s →
  (saved_translations s → saved_translations s')
  ∧ (saved_gptConfig s → saved_gptConfig s')
  ∧ (translations s' ≠ translations s → saved_translations s')
  ∧ (gptConfig s' ≠ gptConfig s → saved_gptConfig s').

(** [s] and [s'] agree on the state of the hooks, on local storage and on
    the console. *)
Definition same_store (s s' : Sys) : Prop :=
  translations s' = translations s ∧ gptConfig s' = gptConfig s
  ∧ localStorage s' = localStorage s ∧ console s' = console s.

(** ** Sample surroundings, used to run the model *)

Module Sample.

Definition reply (s : string) : Axios.Settled :=
  Axios.Fulfilled
    (Some {| Api.choices :=
               Some [ {| Api.message := Some {| Api.content := Some s |} |} ] |}).

Definition failure (code : option string) (status : Z)
  (message : option string) : Axios.Settled :=
  Axios.RejectedAxios
    {| Axios.code := code;
       Axios.response :=
         Some {| Axios.status := status;
                 Axios.data :=
                   Some {| Axios.error :=
                             Some {| Axios.message := message |} |} |} |}.

Definition offline : Axios.Settled :=
  Axios.RejectedAxios {| Axios.code := Some "ERR_NETWORK"; Axios.response := None |}.

(** A browser in which every image is 1000 by 500 and encodes to a short
    data URL, with a network that answers as [net] says. *)
Definition browser (net : nat → Axios.Settled) : Env :=
  {| axios_post := λ n _, net n;
     readAsDataURL := λ f, Some ("data:image/png;base64," ++ Dom.name f);
     decode := λ _, Some {| Dom.width := 1000; Dom.height := 500 |};
     getContext := λ _, true;
     toDataURL := λ _ _ _, "data:image/jpeg;base64,AAAA";
     Date_now := λ n, (1700000000000 + Z.of_nat n)%Z;
     toISOString := λ _, "2023-11-14T22:13:20.000Z" |}.

(** The OCR request is answered with "Hello", the next one with "你好". *)
Definition net_ok (n : nat) : Axios.Settled :=
  match n with
  | O => reply "Hello"
  | _ => reply "你好"
  end.

Definition config : GPTConfig :=
  {| apiKey := "sk-test"; baseUrl := "https://api.link-ai.tech" |}.

Definition unlimited : Dom.Storage := {| Dom.items := ∅; Dom.quota := 1000000 |}.

Definition start : Sys := mount [] config unlimited.

Definition photo : Dom.File := {| Dom.name := "photo.png"; Dom.size := 4096 |}.

Definition big_photo : Dom.File :=
  {| Dom.name := "big.png"; Dom.size := 6 * 1024 * 1024 |}.

(** A provider whose API key has been cleared in the settings. *)
Definition no_key : Sys :=
  mount [] {| apiKey := ""; baseUrl := "https://api.link-ai.tech" |} unlimited.

(** A store that is nearly full. *)
Definition cramped : Dom.Storage := {| Dom.items := ∅; Dom.quota := 100 |}.

Definition entry : Translation :=
  {| id := "1700000000000"; fileName := "文本翻译";
     timestamp := "2023-11-14T22:13:20.000Z"; originalText := "Hello";
     translatedText := "你好"; targetLanguage := "zh" |}.

(** What [processFile] returns for [photo] when the network is [net_ok]. *)
Definition photo_entry : Translation :=
  {| id := "1700000000000"; fileName := "photo.png";
     timestamp := "2023-11-14T22:13:20.000Z"; originalText := "Hello";
     translatedText := "你好"; targetLanguage := "zh" |}.

Definition form : Upload.State :=
  Upload.mkState "zh" false None "" "/".

Definition panes : Viewer.State :=
  {| Viewer.original := Viewer.mkPane 0 700 400;
     Viewer.translated := Viewer.mkPane 0 1000 400 |}.

(** The viewer opened on a route whose translation does not exist, then
    taken to an existing translation through the history list. *)
Definition late_viewer : Viewer.Component :=
  Viewer.rerender true panes (Viewer.mount false panes).

End Sample.

(** ** The page of one translation and the language tables *)

Module Page.

(** [translations.find((t) => t.id === id)] *)
Definition find (i : string) (l : list Translation) : option Translation :=
  List.find (λ t, bool_decide (id t = i)) l.

(** [Record<string, string>] tables, read with [TABLE[code]]. *)
Definition lookup (code : string) (table : list (string * string))
  : option string :=
  snd <$> List.find (λ entry, bool_decide (fst entry = code)) table.

(** [LANGUAGES] of the upload form: [code] and [name]. *)
Definition LANGUAGES : list (string * string) :=
  [ ("zh", "中文"); ("en", "English"); ("ja", "日本語"); ("ko", "한국어");
    ("fr", "Français"); ("de", "Deutsch"); ("es", "Español");
    ("ru", "Русский") ].

(** [LANGUAGE_NAMES] of the translation page. *)
Definition LANGUAGE_NAMES : list (string * string) :=
  [ ("zh", "中文"); ("en", "English"); ("ja", "日本語"); ("ko", "한국어");
    ("fr", "Français"); ("de", "Deutsch"); ("es", "Español");
    ("ru", "Русский") ].

End Page.

(** ** The sidebar: history list and settings dialog *)

Module Sidebar.

(** [LANGUAGE_NAMES] of the sidebar. *)
Definition LANGUAGE_NAMES : list (string * string) :=
  [ ("zh", "中文"); ("en", "English"); ("ja", "日本語"); ("ko", "한国語");
    ("fr", "Français"); ("de", "Deutsch"); ("es", "Español");
    ("ru", "Русский") ].

(** The request of [validateAPIConfig]; it has no [temperature]. *)
Record Ping := {
  url : string;
  model : string;
  messages : list Api.ChatMessage;
  max_tokens : Z;
  headers : list (string * string);
  timeout : Z;
}.

(** How the promise of its [axios.post] settles: fulfilled with a status,
    rejected with an axios error, or rejected with something else. *)
Inductive Pong :=
| Responded (status : Z)
| Failed (e : Axios.AxiosError)
| Threw (e : Exn).

Record Env := {
  valid_url : string → bool;
  post : Ping → Pong;
}.

Inductive Status := success | error.

Global Instance Status_eq_dec : EqDecision Status.
Proof. solve_decision. Defined.

Record State := mkState {
  showSettings : bool;
  tempConfig : GPTConfig;
  isValidating : bool;
  validationStatus : option Status;
  validationMessage : string;
  validationStep : string;
  pathname : string;
}.

(** What the [try] block throws. *)
Inductive Thrown :=
| AxiosThrown (e : Axios.AxiosError)
| Other (e : Exn).

Definition ping_for (c : GPTConfig) : Ping :=
  {| url := Str.strip_trailing_slash (baseUrl c) ++ "/v1/chat/completions";
     model := "gpt-4o-mini";
     messages := [ {| Api.role := "user"; Api.body := Api.Text "Hi" |} ];
     max_tokens := 5;
     headers := [ ("Authorization", "Bearer " ++ apiKey c);
                  ("Content-Type", "application/json") ];
     timeout := 10000 |}.

(** The [try] block: the requests it issued and what it threw, if
    anything. *)
Definition attempt (env : Env) (c : GPTConfig) : list Ping * option Thrown :=
  let baseUrl := Str.strip_trailing_slash (baseUrl c) in
  if negb (valid_url env baseUrl)
  then ([], Some (Other (Error "API 地址格式无效，请输入完整的 URL")))
  else if negb (Str.truthy (apiKey c))
  then ([], Some (Other (Error "请输入 API Key")))
  else
    let ping := ping_for c in
    match post env ping with
    | Responded status =>
        if (status =? 200)%Z then ([ping], None)
        else ([ping], Some (Other (Error "API 验证失败")))
    | Failed e => ([ping], Some (AxiosThrown e))
    | Threw e => ([ping], Some (Other e))
    end.

(** The [catch] block: the message shown. *)
Definition failure_message (t : Thrown) : string :=
  match t with
  | AxiosThrown e =>
      let status := Axios.status <$> Axios.response e in
      if decide (status = Some 401%Z) then "API Key 无效"
      else if decide (status = Some 404%Z) then "API 接口地址无效"
      else or_string (Axios.response e ≫= server_message)
             "API 验证失败，请检查配置"
  | Other (Error message) => message
  | Other NotAnError => "验证过程中发生未知错误"
  end.

(** The state once [validateAPIConfig] has completed, and the requests it
    issued. *)
Definition validateAPIConfig (env : Env) (st : State) : State * list Ping :=
  let '(pings, thrown) := attempt env (tempConfig st) in
  let '(status, message) :=
    match thrown with
    | None => (success, "API 配置验证成功")
    | Some t => (error, failure_message t)
    end in
  (mkState (showSettings st) (tempConfig st) false (Some status) message ""
     (pathname st),
   pings).

(** The two inputs of the dialog. *)
Definition editApiKey (value : string) (st : State) : State :=
  mkState (showSettings st)
    {| apiKey := value; baseUrl := baseUrl (tempConfig st) |}
    (isValidating st) (validationStatus st) (validationMessage st)
    (validationStep st) (pathname st).

Definition editBaseUrl (value : string) (st : State) : State :=
  mkState (showSettings st)
    {| apiKey := apiKey (tempConfig st); baseUrl := value |}
    (isValidating st) (validationStatus st) (validationMessage st)
    (validationStep st) (pathname st).

Definition handleSaveConfig (st : State) (s : Sys) : State * Sys :=
  (mkState false (tempConfig st) (isValidating st) (validationStatus st)
     (validationMessage st) (validationStep st) (pathname st),
   snd (updateGPTConfig (tempConfig st) s)).

Definition handleRemove (i : string) (st : State) (s : Sys) : State * Sys :=
  let s' := snd (removeTranslation i s) in
  if decide (pathname st = "/translation/" ++ i)
  then (mkState (showSettings st) (tempConfig st) (isValidating st)
          (validationStatus st) (validationMessage st) (validationStep st) "/",
        s')
  else (st, s').

End Sidebar.

(** ** Auxiliary notions for the properties *)

(** The phrases a response is refused for, whatever their case. *)
Definition refusal_phrases : list string :=
  [ "I'm sorry"; "I am sorry"; "I cannot"; "I can't"; "unable to";
    "not able to"; "not allowed to" ].

(** [same_ci a b]: [a] and [b] are the same up to the case of ASCII
    letters. *)
Fixpoint same_ci (a b : string) : bool :=
  match a, b with
  | EmptyString, EmptyString => true
  | String x a', String y b' => Str.eqb_ci x y && same_ci a' b'
  | _, _ => false
  end.

(** A session: operations one after the other. *)
Definition run_all (env : Env) (ops : list Op) (s : Sys) : Sys :=
  foldl (λ s op, run env op s) s ops.

(** The longest data URL [compressImage] lets through. *)
Definition MAX_DATA_URL : Z := 6990529.

(** The relative error of one rounding to a double is at most 2^-53. *)
Definition unit_roundoff : Q := 1 # 9007199254740992.

Module Scenario.

(** A configuration service that accepts every URL and answers 200. *)
Definition service : Sidebar.Env :=
  {| Sidebar.valid_url := λ _, true;
     Sidebar.post := λ _, Sidebar.Responded 200 |}.

Definition unauthorized : Sidebar.Env :=
  {| Sidebar.valid_url := λ _, true;
     Sidebar.post := λ _,
       Sidebar.Failed
         {| Axios.code := Some "ERR_BAD_REQUEST";
            Axios.response := Some {| Axios.status := 401; Axios.data := None |} |} |}.

Definition dialog : Sidebar.State :=
  Sidebar.mkState true
    {| apiKey := "sk-new"; baseUrl := "https://api.example.com/" |}
    false None "" "" "/translation/1700000000000".

Definition history : Sys :=
  set_translations
    [ mkTranslation "2" "b.png" "t2" "u" "v" "en";
      mkTranslation "1" "a.png" "t1" "x" "y" "zh" ] Sample.start.

(** A network whose second answer is white space. *)
Definition net_blank (n : nat) : Axios.Settled := Sample.reply "  ".

(** A clock that does not advance. *)
Definition frozen (net : nat → Axios.Settled) : Env :=
  {| axios_post := λ n _, net n;
     readAsDataURL := readAsDataURL (Sample.browser net);
     decode := decode (Sample.browser net);
     getContext := getContext (Sample.browser net);
     toDataURL := toDataURL (Sample.browser net);
     Date_now := λ _, 1700000000000%Z;
     toISOString := toISOString (Sample.browser net) |}.

Definition text_form : Upload.State :=
  Upload.mkState "zh" false None "hi" "/".

(** What [processText] returns for "hi" when the network is [net_ok]. *)
Definition text_entry : Translation :=
  {| id := "1700000000000"; fileName := "文本翻译";
     timestamp := "2023-11-14T22:13:20.000Z"; originalText := "hi";
     translatedText := "Hello"; targetLanguage := "zh" |}.

(** A translation that happens to contain a refusal phrase. *)
Definition net_unable (n : nat) : Axios.Settled :=
  Sample.reply "Sadly I was UNABLE TO attend.".

(** A browser whose images are 1078 by 333, and whose data URLs show the
    size of the canvas. *)
Definition wide : Dom.Image := {| Dom.width := 1078; Dom.height := 333 |}.

Definition camera (net : nat → Axios.Settled) : Env :=
  {| axios_post := λ n _, net n;
     readAsDataURL := readAsDataURL (Sample.browser net);
     decode := λ _, Some wide;
     getContext := getContext (Sample.browser net);
     toDataURL := λ canvas _ _,
       "data:image/jpeg;base64," ++ pretty (Dom.canvas_width canvas)
       ++ "x" ++ pretty (Dom.canvas_height canvas);
     Date_now := Date_now (Sample.browser net);
     toISOString := toISOString (Sample.browser net) |}.

End Scenario.

(** * Properties *)

Open Scope list_scope.

(** ** Running the hooks *)

Lemma saveToStorage_fields {T} `{ToJSON T} (key : string) (value : T) (s : Sys) :
  let s' := snd (saveToStorage key value s) in
  fst (saveToStorage key value s) = Ok tt
  ∧ translations s' = translations s ∧ gptConfig s' = gptConfig s
  ∧ trace s' = trace s ∧ requests s' = requests s ∧ clock s' = clock s.
Proof.
  unfold saveToStorage.
  destruct (Dom.setItem key (JSON_stringify value) (localStorage s)); simpl; auto 10.
Qed.

Lemma saveToStorage_written {T} `{ToJSON T} (key : string) (value : T) (s : Sys)
  (st : Dom.Storage) :
  Dom.setItem key (JSON_stringify value) (localStorage s) = Some st →
  localStorage (snd (saveToStorage key value s)) = st
  ∧ console (snd (saveToStorage key value s)) = console s.
Proof. unfold saveToStorage. intros ->. done. Qed.

Lemma saveToStorage_failed {T} `{ToJSON T} (key : string) (value : T) (s : Sys) :
  Dom.setItem key (JSON_stringify value) (localStorage s) = None →
  localStorage (snd (saveToStorage key value s)) = localStorage s
  ∧ console (snd (saveToStorage key value s))
    = console s ++ [save_failure].
Proof. unfold saveToStorage. intros ->. done. Qed.

Lemma setItem_lookup (key value : string) (st st' : Dom.Storage) :
  Dom.setItem key value st = Some st' →
  Dom.getItem key st' = Some value
  ∧ ∀ k, k ≠ key → Dom.getItem k st' = Dom.getItem k st.
Proof.
  unfold Dom.setItem, Dom.getItem. case_decide; [|done].
  intros [= <-]. simpl. split.
  - apply lookup_insert_eq.
  - intros k Hk. by apply lookup_insert_ne.
Qed.

Lemma setTranslations_translations (update : list Translation → list Translation)
  (s : Sys) :
  translations (snd (setTranslations update s)) = update (translations s).
Proof.
  unfold setTranslations.
  by destruct (saveToStorage_fields "translations" (update (translations s))
                 (set_translations (update (translations s)) s)) as (_ & -> & _).
Qed.

(** ** History *)

(** C10: [addTranslation] puts the new record in front of the unchanged
    history.  [removeTranslation i] keeps a sublist of the history: the
    entries whose id is [i] are gone, the entries of every other id are all
    kept, in their order; if no entry has id [i] the history is identical. *)
Theorem history_operations (t : Translation) (i : string) (s : Sys) :
  translations (snd (addTranslation t s)) = t :: translations s
  ∧ let kept := translations (snd (removeTranslation i s)) in
    kept `sublist_of` translations s
    ∧ (∀ x, x ∈ kept ↔ x ∈ translations s ∧ id x ≠ i)
    ∧ (∀ j, j ≠ i →
         filter (λ x, id x = j) kept = filter (λ x, id x = j) (translations s))
    ∧ (Forall (λ x, id x ≠ i) (translations s) → kept = translations s).
Proof.
  unfold addTranslation, removeTranslation.
  rewrite !setTranslations_translations. split; [done|]. simpl.
  split; [apply sublist_filter|].
  split; [intros x; rewrite list_elem_of_filter; tauto|].
  split.
  - intros j Hj. rewrite list_filter_filter.
    apply list_filter_iff. intros x. split; [tauto|]. intros <-. done.
  - induction 1 as [|x l Hx _ IH]; [done|].
    rewrite filter_cons. case_decide; [|done]. by rewrite IH.
Qed.

Lemma history_operations_witness :
  let s := set_translations
             [mkTranslation "1" "a" "t1" "x" "y" "zh";
              mkTranslation "2" "b" "t2" "u" "v" "en"] Sample.start in
  Forall (λ x, id x ≠ "3") (translations s)
  ∧ translations (snd (removeTranslation "3" s)) = translations s.
Proof.
  simpl. split.
  - repeat constructor; simpl; discriminate.
  - apply (history_operations (mkTranslation "0" "" "" "" "" "") "3").
    repeat constructor; simpl; discriminate.
Defined.

(** ** Requests *)

Section Requests.

Context (env : Env).

Lemma sent_app (tr1 tr2 : list Event) : sent (tr1 ++ tr2) = sent tr1 ++ sent tr2.
Proof. apply omap_app. Qed.

(** One call of [makeGPTRequest], step by step. *)
Lemma makeGPTRequest_run (messages : list Api.ChatMessage) (options : Options)
  (s : Sys) :
  let req := request_for (gptConfig s) messages options in
  let o := axios_post env (requests s) req in
  makeGPTRequest env messages options s
  = (match o with
     | Axios.Fulfilled data => Ok data
     | _ => Throw (request_error o)
     end,
     posted req o s).
Proof.
  unfold makeGPTRequest, mbind, M_bind, get, post. simpl.
  by destruct (axios_post env _ _).
Qed.

(** C6: a call of [makeGPTRequest] issues exactly one request and waits for
    it; when the request fails the error is thrown at once, nothing is
    sent again. *)
Theorem makeGPTRequest_single_attempt (messages : list Api.ChatMessage)
  (options : Options) (s : Sys) :
  let req := request_for (gptConfig s) messages options in
  let o := axios_post env (requests s) req in
  let s' := snd (makeGPTRequest env messages options s) in
  trace s' = trace s ++ [Sent req; Settled o]
  ∧ sent (trace s') = sent (trace s) ++ [req]
  ∧ requests s' = S (requests s)
  ∧ fst (makeGPTRequest env messages options s)
    = match o with
      | Axios.Fulfilled data => Ok data
      | _ => Throw (request_error o)
      end.
Proof.
  intros req o s'. subst s'. rewrite makeGPTRequest_run. simpl.
  fold req o. split; [done|]. split; [|done].
  by rewrite sent_app.
Qed.


End Requests.

(** ** The pipeline, case by case *)

Lemma request_error_Error (o : Axios.Settled) : ∃ m, request_error o = Error m.
Proof. unfold request_error. repeat case_match; eauto. Qed.

Lemma validateGPTResponse_Error (response : option Api.ChatCompletion) (e : Exn) :
  validateGPTResponse response = Throw e → ∃ m, e = Error m.
Proof. unfold validateGPTResponse. repeat case_match; intros [= <-]; eauto. Qed.

Lemma as_Error_request_error (fallback : string) (o : Axios.Settled) :
  as_Error fallback (request_error o) = request_error o.
Proof. by destruct (request_error_Error o) as [m ->]. Qed.

Ltac step_bind := unfold mbind at 1; unfold M_bind at 1.

Section Pipeline.

Context (env : Env).

Lemma compress_Error (file : Dom.File) (e : Exn) :
  compress env file = Throw e → ∃ m, e = Error m.
Proof. unfold compress. repeat case_match; intros [= <-]; eauto. Qed.

Lemma addTranslation_run (t : Translation) (s : Sys) :
  addTranslation t s = (Ok tt, snd (addTranslation t s)).
Proof.
  destruct (addTranslation t s) as [r s'] eqn:Ha. simpl. f_equal.
  change r with (fst (r, s')). rewrite <- Ha.
  unfold addTranslation, setTranslations. apply saveToStorage_fields.
Qed.

Lemma new_translation_run (fileName originalText translatedText lang : string)
  (s : Sys) :
  new_translation env fileName originalText translatedText lang s
  = (Ok (stamp env fileName originalText translatedText lang (clock s)
           (S (clock s))),
     set_clock (S (S (clock s))) s).
Proof. reflexivity. Qed.

(** The tail shared by both handlers: validate, build the record, add it. *)
Lemma finish_run (fileName originalText lang fallback : string)
  (data : option Api.ChatCompletion) (s : Sys) :
  try_catch
    (translatedText ← lift (validateGPTResponse data);
     translation ← new_translation env fileName originalText translatedText lang;
     _ ← addTranslation translation;
     mret translation)
    (rethrow fallback) s
  = match validateGPTResponse data with
    | Ok translatedText =>
        let t := stamp env fileName originalText translatedText lang
                   (clock s) (S (clock s)) in
        (Ok t, snd (addTranslation t (set_clock (S (S (clock s))) s)))
    | Throw e => (Throw e, s)
    end.
Proof.
  unfold try_catch. step_bind. unfold lift at 1.
  destruct (validateGPTResponse data) as [translatedText|e] eqn:Hv.
  - step_bind. rewrite new_translation_run.
    step_bind. rewrite addTranslation_run. done.
  - destruct (validateGPTResponse_Error _ _ Hv) as [m ->]. done.
Qed.

Lemma processText_run (text lang : string) (s : Sys) :
  processText env text lang s
  = if negb (Str.truthy (apiKey (gptConfig s)))
    then (Throw (Error "请先配置 API Key"), s)
    else
      let req := request_for (gptConfig s) (translation_messages lang text)
                   no_options in
      let o := axios_post env (requests s) req in
      let s1 := posted req o s in
      match o with
      | Axios.Fulfilled data =>
          match validateGPTResponse data with
          | Ok translatedText =>
              let t := stamp env "文本翻译" text translatedText lang
                         (clock s) (S (clock s)) in
              (Ok t, snd (addTranslation t (set_clock (S (S (clock s))) s1)))
          | Throw e => (Throw e, s1)
          end
      | _ => (Throw (request_error o), s1)
      end.
Proof.
  unfold processText. step_bind. unfold get at 1.
  destruct (negb _); [done|].
  pose proof (finish_run "文本翻译" text lang "翻译过程中发生错误，请重试") as Hf.
  unfold try_catch in *. step_bind.
  rewrite makeGPTRequest_run. cbv zeta.
  destruct (axios_post env _ _) as [data|e|] eqn:Ho.
  - etrans; [apply Hf|done].
  - unfold rethrow, throw. by rewrite as_Error_request_error.
  - done.
Qed.

Lemma processFile_run (file : Dom.File) (lang : string) (s : Sys) :
  processFile env file lang s
  = if negb (Str.truthy (apiKey (gptConfig s)))
    then (Throw (Error "请先配置 API Key"), s)
    else
      let s0 := logged (Compressed file (compress env file)) s in
      match compress env file with
      | Throw e => (Throw e, s0)
      | Ok base64 =>
          let req1 := request_for (gptConfig s) (ocr_messages base64)
                        ocr_options in
          let o1 := axios_post env (requests s) req1 in
          let s1 := posted req1 o1 s0 in
          match o1 with
          | Axios.Fulfilled data1 =>
              match validateGPTResponse data1 with
              | Ok originalText =>
                  if Str.blank originalText
                  then (Throw (Error "未能从图片中提取到文字，请确保图片包含清晰的文本"), s1)
                  else
                    let req2 := request_for (gptConfig s)
                                  (translation_messages lang originalText)
                                  no_options in
                    let o2 := axios_post env (S (requests s)) req2 in
                    let s2 := posted req2 o2 s1 in
                    match o2 with
                    | Axios.Fulfilled data2 =>
                        match validateGPTResponse data2 with
                        | Ok translatedText =>
                            let t := stamp env (Dom.name file) originalText
                                       translatedText lang (clock s)
                                       (S (clock s)) in
                            (Ok t,
                             snd (addTranslation t
                                    (set_clock (S (S (clock s))) s2)))
                        | Throw e => (Throw e, s2)
                        end
                    | _ => (Throw (request_error o2), s2)
                    end
              | Throw e => (Throw e, s1)
              end
          | _ => (Throw (request_error o1), s1)
          end
      end.
Proof.
  unfold processFile. step_bind. unfold get at 1.
  destruct (negb _); [done|].
  pose proof (finish_run (Dom.name file)) as Hf.
  unfold try_catch in *. step_bind. unfold compressImage at 1. cbv zeta.
  destruct (compress env file) as [base64|e] eqn:Hc.
  2: { destruct (compress_Error _ _ Hc) as [m ->]. done. }
  step_bind. unfold extractTextFromImage at 1. step_bind.
  rewrite makeGPTRequest_run. cbv zeta.
  change (requests (logged _ s)) with (requests s).
  change (gptConfig (logged _ s)) with (gptConfig s).
  destruct (axios_post env _ _) as [data1|e1|] eqn:Ho1.
  2: { unfold rethrow, throw. by rewrite as_Error_request_error. }
  2: done.
  unfold lift at 1.
  destruct (validateGPTResponse data1) as [originalText|e] eqn:Hv1.
  2: { destruct (validateGPTResponse_Error _ _ Hv1) as [m ->]. done. }
  destruct (Str.blank originalText); [done|].
  step_bind. rewrite makeGPTRequest_run. cbv zeta.
  change (requests (posted _ _ (logged _ s))) with (S (requests s)).
  change (gptConfig (posted _ _ (logged _ s))) with (gptConfig s).
  destruct (axios_post env (S _) _) as [data2|e2|] eqn:Ho2.
  - etrans; [apply Hf|done].
  - unfold rethrow, throw. by rewrite as_Error_request_error.
  - done.
Qed.

End Pipeline.

(** ** What the handlers do to the history and to the network *)

Lemma addTranslation_frame (t : Translation) (s : Sys) :
  let s' := snd (addTranslation t s) in
  translations s' = t :: translations s ∧ gptConfig s' = gptConfig s
  ∧ trace s' = trace s ∧ requests s' = requests s ∧ clock s' = clock s.
Proof.
  unfold addTranslation, setTranslations.
  destruct (saveToStorage_fields "translations" (t :: translations s)
              (set_translations (t :: translations s) s))
    as (_ & -> & -> & -> & -> & ->).
  done.
Qed.

Lemma last_two {A} (l : list A) (a b : A) : last (l ++ [a; b]) = Some b.
Proof. change [a; b] with ([a] ++ [b]). by rewrite app_assoc, last_snoc. Qed.

Section History.

Context (env : Env).

(** C8: a call of [processText] or [processFile] that throws leaves the
    history and the whole of local storage as they were; a call that
    returns has put its record in front of the history, and the translated
    text of that record is a validated response. *)
Theorem history_atomic (text : string) (file : Dom.File) (lang : string)
  (s : Sys) :
  (∀ e s', processText env text lang s = (Throw e, s') →
     translations s' = translations s ∧ localStorage s' = localStorage s)
  ∧ (∀ e s', processFile env file lang s = (Throw e, s') →
       translations s' = translations s ∧ localStorage s' = localStorage s)
  ∧ (∀ t s', processText env text lang s = (Ok t, s') →
       translations s' = t :: translations s
       ∧ ∃ data, last (trace s') = Some (Settled (Axios.Fulfilled data))
                 ∧ validateGPTResponse data = Ok (translatedText t))
  ∧ (∀ t s', processFile env file lang s = (Ok t, s') →
       translations s' = t :: translations s
       ∧ ∃ data, last (trace s') = Some (Settled (Axios.Fulfilled data))
                 ∧ validateGPTResponse data = Ok (translatedText t)).
Proof.
  rewrite processText_run, processFile_run. cbv zeta.
  split; [|split; [|split]]; intros x s' Hrun;
    repeat case_match; simplify_eq; try done;
    match goal with
    | |- context [addTranslation ?t ?s0] =>
        destruct (addTranslation_frame t s0) as (Ht & _ & Htr & _)
    end;
    (split; [done|]); eexists; rewrite Htr; (split; [|done]); simpl;
    apply last_two.
Qed.

End History.

Section Image.

Context (env : Env).

(** C5: when [processFile] returns, it has compressed the image, sent the
    OCR request and waited for its answer, and only then sent the
    translation request.  The OCR request goes to the multimodal model and
    its user message carries the compressed image; the user message of the
    translation request is the extracted text, and its system message asks
    for a translation into the language [processFile] was called with.
    The record it returns has the validated OCR answer as original text,
    the validated answer of the translation request as translated text, and
    that language, which for a dropped file is the language selected in the
    form. *)
Theorem processFile_ocr_then_translate (file : Dom.File) (lang : string)
  (s s' : Sys) (t : Translation) :
  processFile env file lang s = (Ok t, s') →
  (∃ base64 ocr data1 translate data2,
     compress env file = Ok base64
     ∧ trace s'
       = trace s
         ++ [ Compressed file (Ok base64);
              Sent ocr; Settled (Axios.Fulfilled data1);
              Sent translate; Settled (Axios.Fulfilled data2) ]
     ∧ ocr = request_for (gptConfig s) (ocr_messages base64) ocr_options
     ∧ translate
       = request_for (gptConfig s)
           (translation_messages lang (originalText t)) no_options
     ∧ Api.model (Api.payload ocr) = "gpt-4o"
     ∧ (∃ rules,
          Api.messages (Api.payload ocr)
          = [ {| Api.role := "system";
                 Api.body := Api.Text
                   ("你是一位专业的 OCR 专家。请提取图片中的文字。" ++ rules)%string |};
              {| Api.role := "user";
                 Api.body := Api.Parts
                   [ Api.text "请提取这张图片中的所有文字，保持原有格式：";
                     Api.image_url base64 ] |} ])
     ∧ Api.model (Api.payload translate) = "gpt-4o-mini"
     ∧ (∃ rules,
          Api.messages (Api.payload translate)
          = [ {| Api.role := "system";
                 Api.body := Api.Text
                   ("你是一位专业翻译。请将以下文本翻译成" ++ lang ++ rules)%string |};
              {| Api.role := "user"; Api.body := Api.Text (originalText t) |} ])
     ∧ validateGPTResponse data1 = Ok (originalText t)
     ∧ validateGPTResponse data2 = Ok (translatedText t))
  ∧ targetLanguage t = lang
  ∧ fileName t = Dom.name file
  ∧ ∀ u, Upload.targetLanguage u = lang →
         (Dom.size file ≤ Upload.UI_MAX_SIZE)%Z →
         let '(u', s'') := Upload.onDrop env [file] u s in
         s'' = s'
         ∧ Upload.location u' = ("/translation/" ++ id t)%string
         ∧ head (translations s'') = Some t
         ∧ targetLanguage t = Upload.targetLanguage u.
Proof.
  intros Hrun. split; [|split; [|split]].
  - revert Hrun. rewrite processFile_run. cbv zeta.
    repeat case_match; intros; simplify_eq.
    match goal with
    | |- context [addTranslation ?t ?s0] =>
        destruct (addTranslation_frame t s0) as (_ & _ & Htr & _)
    end.
    do 5 eexists. split; [done|]. rewrite Htr. simpl.
    split; [by rewrite <- !app_assoc|].
    split; [reflexivity|]. split; [reflexivity|]. split; [reflexivity|].
    split; [by eexists|]. split; [reflexivity|]. split; [by eexists|]. done.
  - revert Hrun. rewrite processFile_run. cbv zeta.
    repeat case_match; intros; by simplify_eq.
  - revert Hrun. rewrite processFile_run. cbv zeta.
    repeat case_match; intros; by simplify_eq.
  - intros u Hu Hsize. subst lang. unfold Upload.onDrop. simpl.
    rewrite (proj2 (Z.ltb_ge _ _) Hsize).
    change (Upload.targetLanguage (Upload.setError None
              (Upload.setIsProcessing true u)))
      with (Upload.targetLanguage u).
    rewrite Hrun. simpl.
    split; [done|]. split; [done|].
    revert Hrun. rewrite processFile_run. cbv zeta.
    repeat case_match; intros; simplify_eq.
    match goal with
    | |- context [addTranslation ?t ?s0] =>
        destruct (addTranslation_frame t s0) as (-> & _)
    end.
    done.
Qed.

(** C9, as the code has it: with an API key configured, a file of more
    than 5 MB makes [processFile] throw the 5 MB message when
    [compressImage] settles, before any request; such a file of at most
    20 MB passes the check of the upload form, which then shows that
    message, while a file of more than 20 MB is stopped by the form.
    Without an API key [processFile] throws the message about the key and
    [compressImage] is not called. *)
Theorem oversized_image_rejected (file : Dom.File) (lang : string) (s : Sys)
  (u : Upload.State) :
  (MAX_FILE_SIZE < Dom.size file)%Z →
  let failure := Error "图片大小不能超过 5MB" in
  (Str.truthy (apiKey (gptConfig s)) = false →
   processFile env file lang s = (Throw (Error "请先配置 API Key"), s))
  ∧ (Str.truthy (apiKey (gptConfig s)) = true →
     processFile env file lang s
     = (Throw failure, logged (Compressed file (Throw failure)) s)
     ∧ sent (trace (snd (processFile env file lang s))) = sent (trace s)
     ∧ ((Dom.size file ≤ Upload.UI_MAX_SIZE)%Z →
        Upload.error (fst (Upload.onDrop env [file] u s))
        = Some "图片大小不能超过 5MB")
     ∧ ((Upload.UI_MAX_SIZE < Dom.size file)%Z →
        Upload.onDrop env [file] u s
        = (Upload.setError (Some "文件大小不能超过 20MB") u, s))).
Proof.
  intros Hbig failure. split.
  { intros Hkey. by rewrite processFile_run, Hkey. }
  intros Hkey.
  assert (Hc : compress env file = Throw failure).
  { unfold compress. by rewrite (proj2 (Z.ltb_lt _ _) Hbig). }
  assert (Hrun : processFile env file lang s
                 = (Throw failure, logged (Compressed file (Throw failure)) s)).
  { rewrite processFile_run, Hkey. simpl. by rewrite Hc. }
  split; [done|]. rewrite Hrun. split.
  - simpl. rewrite sent_app. simpl. by rewrite app_nil_r.
  - split.
    + intros Hui. unfold Upload.onDrop. simpl.
      rewrite (proj2 (Z.ltb_ge _ _) Hui).
      change (Upload.targetLanguage (Upload.setError None
                (Upload.setIsProcessing true u)))
        with (Upload.targetLanguage u).
      pose proof (processFile_run env file (Upload.targetLanguage u) s) as Hr.
      rewrite Hkey, Hc in Hr. simpl in Hr. rewrite Hr. done.
    + intros Hui. unfold Upload.onDrop. simpl.
      by rewrite (proj2 (Z.ltb_lt _ _) Hui).
Qed.

End Image.

(** ** Rounding to a double *)

Section Rounding.

Local Open Scope Q_scope.

Lemma two_neq_0 : ¬ 2 == 0.
Proof. intros H. discriminate H. Qed.

Lemma pow2_pos (k : Z) : 0 < 2 ^ k.
Proof. apply Qpower_0_lt. reflexivity. Qed.

Lemma pow2_succ (k : Z) : 2 ^ (k + 1) == 2 * 2 ^ k.
Proof. rewrite Qpower_plus by apply two_neq_0. change (2 ^ 1) with 2. ring. Qed.

Lemma pow2_pred (k : Z) : 2 * 2 ^ (k - 1) == 2 ^ k.
Proof.
  rewrite <- pow2_succ. replace (k - 1 + 1)%Z with k by lia. reflexivity.
Qed.

Lemma pow2_Z (a : Z) : (0 <= a)%Z → inject_Z (2 ^ a) == 2 ^ a.
Proof. intros Ha. rewrite Zpower_Qpower by exact Ha. reflexivity. Qed.

Lemma pow2_le (a b : Z) : (a <= b)%Z → 2 ^ a <= 2 ^ b.
Proof. intros H. apply Qpower_le_compat_l; [exact H|]. discriminate. Qed.

(** [ilog2 x] is the exponent of the power of two at or below [x]. *)
Lemma ilog2_spec (x : Q) :
  0 < x → 2 ^ Number.ilog2 x <= x ∧ x < 2 ^ (Number.ilog2 x + 1).
Proof.
  intros Hx. unfold Number.ilog2.
  destruct x as [n d]. simpl Qnum. simpl Qden.
  assert (Hn : (0 < n)%Z).
  { unfold Qlt in Hx. simpl in Hx. lia. }
  set (a := Z.log2 n). set (b := Z.log2 (Z.pos d)).
  destruct (Z.log2_spec n Hn) as [Ha1 Ha2]. fold a in Ha1, Ha2.
  destruct (Z.log2_spec (Z.pos d) ltac:(lia)) as [Hb1 Hb2]. fold b in Hb1, Hb2.
  assert (Ha0 : (0 <= a)%Z) by apply Z.log2_nonneg.
  assert (Hb0 : (0 <= b)%Z) by apply Z.log2_nonneg.
  set (K := 2 ^ (a - b)).
  assert (HK : 0 < K) by apply pow2_pos.
  set (A := 2 ^ a). set (B := 2 ^ b).
  assert (HB : 0 < B) by apply pow2_pos.
  assert (HKB : K * B == A).
  { unfold K, A, B. rewrite <- Qpower_plus by apply two_neq_0.
    replace (a - b + b)%Z with a by lia. reflexivity. }
  set (nq := inject_Z n). set (dq := inject_Z (Z.pos d)).
  assert (Hxd : (n # d) * dq == nq).
  { unfold dq, nq. rewrite (Qmake_Qdiv n d). field. intros H. discriminate H. }
  assert (Hdq : 0 < dq) by reflexivity.
  assert (HA1 : A <= nq).
  { unfold A, nq. rewrite <- pow2_Z by exact Ha0. rewrite <- Zle_Qle. exact Ha1. }
  assert (HA2 : nq < 2 * A).
  { unfold A, nq. rewrite <- pow2_succ.
    rewrite <- pow2_Z by lia. rewrite <- Zlt_Qlt.
    replace (a + 1)%Z with (Z.succ a) by lia. exact Ha2. }
  assert (HB1 : B <= dq).
  { unfold B, dq. rewrite <- pow2_Z by exact Hb0. rewrite <- Zle_Qle. exact Hb1. }
  assert (HB2 : dq < 2 * B).
  { unfold B, dq. rewrite <- pow2_succ.
    rewrite <- pow2_Z by lia. rewrite <- Zlt_Qlt.
    replace (b + 1)%Z with (Z.succ b) by lia. exact Hb2. }
  set (x := n # d) in *.
  destruct (Qle_bool K x) eqn:Hle.
  - apply Qle_bool_iff in Hle. split; [exact Hle|].
    rewrite pow2_succ. fold K.
    destruct (Qlt_le_dec x (2 * K)) as [H|H]; [exact H|exfalso].
    assert (H1 : 0 <= (x - 2 * K) * dq) by (apply Qmult_le_0_compat; lra).
    assert (H2 : 0 <= K * (dq - B)) by (apply Qmult_le_0_compat; lra).
    lra.
  - assert (Hlt : x < K).
    { destruct (Qlt_le_dec x K) as [H|H]; [exact H|].
      apply Qle_bool_iff in H. congruence. }
    split.
    + assert (Hp := pow2_pred (a - b)). fold K in Hp.
      set (K' := 2 ^ (a - b - 1)) in *.
      destruct (Qlt_le_dec x K') as [H|H]; [exfalso|exact H].
      assert (HK' : 0 < K') by apply pow2_pos.
      assert (HK'B : 2 * (K' * B) == A) by (rewrite <- HKB, <- Hp; ring).
      assert (H1 : 0 < (K' - x) * dq) by (apply Qmult_lt_0_compat; lra).
      assert (H2 : 0 <= K' * (2 * B - dq)) by (apply Qmult_le_0_compat; lra).
      lra.
    + replace (a - b - 1 + 1)%Z with (a - b)%Z by lia. exact Hlt.
Qed.

(** Rounding to an integer moves a number by at most one half, and not
    below its integer part. *)
Lemma nearest_even_bounds (y : Q) :
  let n := inject_Z (Number.nearest_even y) in
  y - (1 # 2) <= n ∧ n <= y + (1 # 2) ∧ inject_Z (Qfloor y) <= n.
Proof.
  unfold Number.nearest_even.
  pose proof (Qfloor_le y) as Hf. pose proof (Qlt_floor y) as Hc.
  rewrite inject_Z_plus in Hc. change (inject_Z 1) with 1 in Hc.
  set (f := Qfloor y) in *.
  destruct (y - inject_Z f ?= 1 # 2) eqn:Hcmp.
  - apply Qeq_alt in Hcmp.
    destruct (Z.even f); rewrite ?inject_Z_plus; change (inject_Z 1) with 1;
      repeat split; lra.
  - apply Qlt_alt in Hcmp. repeat split; lra.
  - apply Qgt_alt in Hcmp. rewrite inject_Z_plus. change (inject_Z 1) with 1.
    repeat split; lra.
Qed.

Lemma nearest_even_Z (y : Q) (z : Z) :
  y == inject_Z z → Number.nearest_even y = z.
Proof.
  intros Hy. unfold Number.nearest_even.
  assert (Hf : Qfloor y = z) by (rewrite Hy; apply Qfloor_Z).
  rewrite Hf.
  assert (Hlt : y - inject_Z z < 1 # 2) by (rewrite Hy; lra).
  assert (Hc : (y - inject_Z z ?= 1 # 2) = Lt) by (apply Qlt_alt; exact Hlt).
  rewrite Hc. reflexivity.
Qed.

Lemma round_pos_value (x : Q) :
  let e := (Number.ilog2 x - 52)%Z in
  Number.round_pos x == inject_Z (Number.nearest_even (x / 2 ^ e)) * 2 ^ e.
Proof. unfold Number.round_pos. apply Qred_correct. Qed.

Lemma pow2_shift (k : Z) : 2 ^ (k - 52) == 2 ^ k * (1 # 4503599627370496).
Proof.
  unfold Z.sub. rewrite Qpower_plus by apply two_neq_0. reflexivity.
Qed.

Lemma round_pos_error (x : Q) :
  0 < x →
  x - x * unit_roundoff <= Number.round_pos x
  ∧ Number.round_pos x <= x + x * unit_roundoff.
Proof.
  intros Hx. rewrite round_pos_value. cbv zeta.
  destruct (ilog2_spec x Hx) as [Hk _].
  set (k := Number.ilog2 x) in *.
  pose proof (pow2_shift k) as HE. pose proof (pow2_pos (k - 52)) as HE0.
  pose proof (pow2_pos k) as HK0.
  set (E := 2 ^ (k - 52)) in *. set (K := 2 ^ k) in *.
  destruct (nearest_even_bounds (x / E)) as (H1 & H2 & _).
  set (n := inject_Z (Number.nearest_even (x / E))) in *.
  assert (Hy : x / E * E == x) by (field; lra).
  set (y := x / E) in *. unfold unit_roundoff.
  assert (G1 : 0 <= (n - (y - (1 # 2))) * E) by (apply Qmult_le_0_compat; lra).
  assert (G2 : 0 <= (y + (1 # 2) - n) * E) by (apply Qmult_le_0_compat; lra).
  split; lra.
Qed.

Lemma ilog2_lt (x : Q) (j : Z) : 0 < x → x < 2 ^ j → (Number.ilog2 x < j)%Z.
Proof.
  intros Hx Hj. destruct (ilog2_spec x Hx) as [Hk _].
  destruct (Z_lt_le_dec (Number.ilog2 x) j) as [H|H]; [exact H|exfalso].
  pose proof (pow2_le _ _ H). lra.
Qed.

Lemma ilog2_ge (x : Q) (j : Z) : 0 < x → 2 ^ j <= x → (j <= Number.ilog2 x)%Z.
Proof.
  intros Hx Hj. destruct (ilog2_spec x Hx) as [_ Hk].
  destruct (Z_le_gt_dec j (Number.ilog2 x)) as [H|H]; [exact H|exfalso].
  assert (H' : (Number.ilog2 x + 1 <= j)%Z) by lia.
  pose proof (pow2_le _ _ H'). lra.
Qed.

Lemma round_pos_Z (x : Q) (z : Z) :
  x == inject_Z z → (0 < z < 2 ^ 53)%Z → Number.round_pos x == inject_Z z.
Proof.
  intros Hxz [Hz0 Hz]. rewrite round_pos_value. cbv zeta.
  assert (Hx : 0 < x).
  { rewrite Hxz. change 0 with (inject_Z 0). rewrite <- Zlt_Qlt. lia. }
  assert (Hk : (Number.ilog2 x < 53)%Z).
  { apply ilog2_lt; [exact Hx|]. rewrite Hxz, <- pow2_Z by lia.
    rewrite <- Zlt_Qlt. exact Hz. }
  set (k := Number.ilog2 x) in *.
  assert (He : 2 ^ (k - 52) * inject_Z (2 ^ (52 - k)) == 1).
  { rewrite pow2_Z by lia. rewrite <- Qpower_plus by apply two_neq_0.
    replace (k - 52 + (52 - k))%Z with 0%Z by lia. reflexivity. }
  pose proof (pow2_pos (k - 52)) as HE0.
  set (E := 2 ^ (k - 52)) in *.
  rewrite (nearest_even_Z _ (z * 2 ^ (52 - k))).
  - rewrite inject_Z_mult. set (F := inject_Z (2 ^ (52 - k))) in *.
    rewrite <- Qmult_assoc, (Qmult_comm F E), He. ring.
  - rewrite inject_Z_mult, Hxz. set (F := inject_Z (2 ^ (52 - k))) in *.
    assert (HF : F == / E).
    { apply (Qmult_inj_l _ _ E); [lra|]. rewrite He. field. lra. }
    rewrite HF. reflexivity.
Qed.

Lemma round_pos_ge_1 (x : Q) : 1 <= x → 1 <= Number.round_pos x.
Proof.
  intros Hx1. assert (Hx : 0 < x) by lra.
  rewrite round_pos_value. cbv zeta.
  assert (Hk0 : (0 <= Number.ilog2 x)%Z) by (apply ilog2_ge; [exact Hx|exact Hx1]).
  destruct (ilog2_spec x Hx) as [Hk _].
  set (k := Number.ilog2 x) in *.
  pose proof (pow2_shift k) as HE. pose proof (pow2_pos (k - 52)) as HE0.
  pose proof (pow2_le 0 k Hk0) as HK1. change (2 ^ 0) with 1 in HK1.
  set (E := 2 ^ (k - 52)) in *. set (K := 2 ^ k) in *.
  destruct (nearest_even_bounds (x / E)) as (_ & _ & H3).
  assert (Hy : inject_Z 4503599627370496 <= x / E).
  { apply Qle_shift_div_l; [exact HE0|].
    change (inject_Z 4503599627370496) with 4503599627370496. lra. }
  apply Qfloor_resp_le in Hy. rewrite Qfloor_Z in Hy.
  rewrite Zle_Qle in Hy.
  set (n := inject_Z (Number.nearest_even (x / E))) in *.
  set (f := inject_Z (Qfloor (x / E))) in *.
  change (inject_Z 4503599627370496) with 4503599627370496 in Hy.
  assert (G : 0 <= (n - 4503599627370496) * E) by (apply Qmult_le_0_compat; lra).
  lra.
Qed.

Lemma round_pos_comp (x : Q) :
  0 < x → Number.round x = Number.round_pos (Qred x).
Proof.
  intros Hx. unfold Number.round.
  assert (H : (Qred x ?= 0) = Gt).
  { apply Qgt_alt. rewrite Qred_correct. exact Hx. }
  rewrite H. reflexivity.
Qed.

Lemma round_comp (x y : Q) : x == y → Number.round x = Number.round y.
Proof.
  intros H. unfold Number.round. rewrite (Qred_complete _ _ H). reflexivity.
Qed.

Lemma round_0 (x : Q) : x == 0 → Number.round x = 0.
Proof. intros H. rewrite (round_comp _ _ H). reflexivity. Qed.

(** The relative error of one rounding is at most 2^-53. *)
Lemma round_error (x : Q) :
  0 < x →
  x - x * unit_roundoff <= Number.round x
  ∧ Number.round x <= x + x * unit_roundoff.
Proof.
  intros Hx. rewrite round_pos_comp by exact Hx.
  assert (Hr : 0 < Qred x) by (rewrite Qred_correct; exact Hx).
  destruct (round_pos_error _ Hr) as [H1 H2].
  pose proof (Qred_correct x) as Hq. unfold unit_roundoff in *.
  set (x' := Qred x) in *. set (r := Number.round_pos x') in *.
  split; lra.
Qed.

(** Whole numbers below 2^53 are doubles. *)
Lemma round_Z (z : Z) :
  (0 <= z < 2 ^ 53)%Z → Number.round (inject_Z z) == inject_Z z.
Proof.
  intros [Hz0 Hz]. destruct (Z.eq_dec z 0%Z) as [->|Hn]; [reflexivity|].
  assert (Hx : 0 < inject_Z z) by (change 0 with (inject_Z 0); rewrite <- Zlt_Qlt; lia).
  rewrite round_pos_comp by exact Hx.
  apply round_pos_Z; [apply Qred_correct|lia].
Qed.

(** Rounding does not take a number from 1 or above to below 1. *)
Lemma round_ge_1 (x : Q) : 1 <= x → 1 <= Number.round x.
Proof.
  intros Hx. rewrite round_pos_comp by lra.
  apply round_pos_ge_1. rewrite Qred_correct. exact Hx.
Qed.

End Rounding.

(** ** Scaling *)

Section Scaling.

Local Open Scope Q_scope.

Lemma Qmax_Z (a b : Z) : Qmax (inject_Z a) (inject_Z b) = inject_Z (Z.max a b).
Proof.
  unfold Qmax, GenericMinMax.gmax, Qcompare, Z.max. simpl.
  rewrite !Z.mul_1_r. by destruct (a ?= b)%Z.
Qed.

Lemma to_unsigned_long_floor (x : Q) :
  0 <= x → x < 4294967296 → Number.to_unsigned_long x = Qfloor x.
Proof.
  intros H0 H1. unfold Number.to_unsigned_long.
  destruct x as [n d]. simpl.
  assert (Hn : (0 <= n)%Z) by (unfold Qle in H0; simpl in H0; lia).
  rewrite Z.quot_div_nonneg by lia.
  apply Z.mod_small. split; [apply Z.div_pos; lia|].
  apply Z.div_lt_upper_bound; [lia|].
  unfold Qlt in H1. simpl in H1. lia.
Qed.

(** The scale of an image within the limit is 1. *)
Lemma scale_of_small (w h : Z) :
  (0 <= w)%Z → (0 <= h)%Z → (Z.max w h <= 800)%Z →
  scale_of (inject_Z w) (inject_Z h) == 1.
Proof.
  intros Hw Hh Hm. unfold scale_of. rewrite Qmax_Z.
  set (m := Z.max w h) in *.
  destruct (Qeq_bool (inject_Z m) 0) eqn:Hz; [reflexivity|].
  apply Qeq_bool_neq in Hz.
  assert (Hm0 : (0 < m)%Z).
  { destruct (Z.eq_dec m 0%Z) as [E|E]; [|lia]. rewrite E in Hz. by destruct Hz. }
  apply Q.min_l. apply round_ge_1. unfold MAX_IMAGE_SIZE.
  assert (H1 : 0 < inject_Z m) by (change 0 with (inject_Z 0); rewrite <- Zlt_Qlt; lia).
  assert (H2 : inject_Z m <= 800).
  { change 800 with (inject_Z 800). rewrite <- Zle_Qle. exact Hm. }
  apply Qle_shift_div_l; [exact H1|]. lra.
Qed.

(** The scale of a larger image is the rounded quotient, which is below 1. *)
Lemma scale_of_large (w h : Z) :
  (800 < Z.max w h)%Z →
  let x := 800 / inject_Z (Z.max w h) in
  scale_of (inject_Z w) (inject_Z h) == Number.div 800 (inject_Z (Z.max w h))
  ∧ x - x * unit_roundoff <= scale_of (inject_Z w) (inject_Z h)
  ∧ scale_of (inject_Z w) (inject_Z h) <= x + x * unit_roundoff
  ∧ scale_of (inject_Z w) (inject_Z h) < 1.
Proof.
  intros Hm x. unfold scale_of. rewrite Qmax_Z.
  set (m := Z.max w h) in *.
  assert (H1 : 801 <= inject_Z m).
  { change 801 with (inject_Z 801). rewrite <- Zle_Qle. lia. }
  destruct (Qeq_bool (inject_Z m) 0) eqn:Hz.
  { apply Qeq_bool_iff in Hz. lra. }
  assert (Hx : 0 < x) by (apply Qlt_shift_div_l; lra).
  assert (Hx1 : x * 801 <= 800).
  { assert (E : x * inject_Z m == 800) by (unfold x; field; lra).
    assert (0 <= x * (inject_Z m - 801)) by (apply Qmult_le_0_compat; lra).
    lra. }
  destruct (round_error x Hx) as [Hlo Hhi].
  unfold MAX_IMAGE_SIZE, Number.div. fold x. clearbody x.
  assert (Hlt : Number.round x < 1) by (unfold unit_roundoff in *; lra).
  assert (Hmin : Qmin 1 (Number.round x) == Number.round x) by (apply Q.min_r; lra).
  rewrite Hmin. repeat split; assumption.
Qed.

(** One side of the canvas of a larger image: the whole pixels of
    [side * 800 / longer], or one less when that quotient is whole. *)
Lemma scaled_side (a w h : Z) :
  (0 <= a <= Z.max w h)%Z → (800 < Z.max w h < 2 ^ 32)%Z →
  let m := Z.max w h in
  let side := Number.mul (inject_Z a) (scale_of (inject_Z w) (inject_Z h)) in
  let pixels := Number.to_unsigned_long side in
  0 <= side ∧ pixels = Qfloor side
  ∧ (pixels * m <= 800 * a)%Z ∧ (800 * a <= (pixels + 1) * m)%Z.
Proof.
  intros [Ha0 Ham] [Hm Hm32] m side pixels.
  destruct (scale_of_large w h Hm) as (_ & Hlo & Hhi & Hlt1). fold m in Hlo, Hhi.
  set (sc := scale_of (inject_Z w) (inject_Z h)) in *.
  set (mq := inject_Z m) in *. set (aq := inject_Z a) in *.
  assert (Hmq : 800 < mq).
  { unfold mq. change 800 with (inject_Z 800). rewrite <- Zlt_Qlt. exact Hm. }
  assert (Hmq32 : mq < 4294967296).
  { unfold mq. change 4294967296 with (inject_Z (2 ^ 32)). rewrite <- Zlt_Qlt. exact Hm32. }
  assert (Haq0 : 0 <= aq).
  { unfold aq. change 0 with (inject_Z 0). rewrite <- Zle_Qle. exact Ha0. }
  assert (Haq : aq <= mq) by (unfold aq, mq; rewrite <- Zle_Qle; exact Ham).
  assert (Hxm : 800 / mq * mq == 800) by (field; lra).
  set (x := 800 / mq) in *.
  assert (Hx0 : 0 < x) by (apply Qlt_shift_div_l; lra).
  assert (Hsc0 : 0 < sc) by (unfold unit_roundoff in *; lra).
  destruct (Z.eq_dec a 0%Z) as [Ea|Ea].
  { assert (Hside : side = 0).
    { unfold side, Number.mul. apply round_0. unfold aq. rewrite Ea. ring. }
    unfold pixels. rewrite Hside, Ea.
    change (Number.to_unsigned_long 0) with 0%Z. change (Qfloor 0) with 0%Z.
    split; [lra|]. split; [reflexivity|]. lia. }
  assert (Haq1 : 1 <= aq).
  { unfold aq. change 1 with (inject_Z 1). rewrite <- Zle_Qle. lia. }
  assert (Hy0 : 0 < aq * sc) by (apply Qmult_lt_0_compat; lra).
  destruct (round_error (aq * sc) Hy0) as [Plo Phi]. fold (Number.mul aq sc) in Plo, Phi.
  fold side in Plo, Phi. unfold unit_roundoff in *.
  (* everything times the longer side *)
  assert (G1 : 0 <= (sc - (x - x * (1 # 9007199254740992))) * mq)
    by (apply Qmult_le_0_compat; lra).
  assert (G2 : 0 <= (x + x * (1 # 9007199254740992) - sc) * mq)
    by (apply Qmult_le_0_compat; lra).
  set (t := sc * mq) in *.
  assert (Ht : 800 - 800 * (1 # 9007199254740992) <= t
               /\ t <= 800 + 800 * (1 # 9007199254740992)).
  { unfold t. split; lra. }
  clear G1 G2.
  assert (G3 : 0 <= aq * (t - (800 - 800 * (1 # 9007199254740992))))
    by (apply Qmult_le_0_compat; lra).
  assert (G4 : 0 <= aq * (800 + 800 * (1 # 9007199254740992) - t))
    by (apply Qmult_le_0_compat; lra).
  assert (G5 : 0 <= (side - (aq * sc - aq * sc * (1 # 9007199254740992))) * mq)
    by (apply Qmult_le_0_compat; lra).
  assert (G6 : 0 <= (aq * sc + aq * sc * (1 # 9007199254740992) - side) * mq)
    by (apply Qmult_le_0_compat; lra).
  assert (Eq1 : aq * sc * mq == aq * t) by (unfold t; ring).
  set (p := side * mq) in *.
  assert (Hp : 800 * aq - 1 < p /\ p < 800 * aq + 1).
  { assert (Hy : 800 * aq - 1801 * aq * (1 # 9007199254740992) <= p
                 /\ p <= 800 * aq + 1801 * aq * (1 # 9007199254740992)).
    { unfold p. clearbody t side. split; lra. }
    split; lra. }
  assert (Hside0 : 0 <= side) by lra.
  assert (Hside32 : side < 4294967296).
  { assert (side * mq < 801 * mq) by (fold p; lra).
    destruct (Qlt_le_dec side 801) as [H'|H']; [lra|exfalso].
    assert (0 <= (side - 801) * mq) by (apply Qmult_le_0_compat; lra). lra. }
  split; [exact Hside0|].
  assert (Hpx : pixels = Qfloor side) by (apply to_unsigned_long_floor; assumption).
  split; [exact Hpx|]. rewrite Hpx.
  pose proof (Qfloor_le side) as Hf. pose proof (Qlt_floor side) as Hc.
  rewrite inject_Z_plus in Hc. change (inject_Z 1) with 1 in Hc.
  set (f := Qfloor side) in *.
  assert (F1 : inject_Z f * mq < 800 * aq + 1).
  { assert (0 <= (side - inject_Z f) * mq) by (apply Qmult_le_0_compat; lra).
    fold p in Hp. lra. }
  assert (F2 : 800 * aq - 1 < (inject_Z f + 1) * mq).
  { assert (0 <= (inject_Z f + 1 - side) * mq) by (apply Qmult_le_0_compat; lra).
    fold p in Hp. lra. }
  unfold aq, mq in F1, F2.
  change 800 with (inject_Z 800) in F1, F2. change 1 with (inject_Z 1) in F1, F2.
  rewrite <- ?inject_Z_plus, <- ?inject_Z_mult, <- ?inject_Z_plus in F1.
  unfold Qminus in F2. change (- inject_Z 1) with (inject_Z (-1)) in F2.
  rewrite <- ?inject_Z_plus, <- ?inject_Z_mult, <- ?inject_Z_plus in F2.
  rewrite <- Zlt_Qlt in F1, F2. split; lia.
Qed.

(** One side of the canvas of an image within the limit: the side itself. *)
Lemma scaled_side_small (a w h : Z) :
  (0 <= a < 2 ^ 32)%Z → (0 <= w)%Z → (0 <= h)%Z → (Z.max w h <= 800)%Z →
  let side := Number.mul (inject_Z a) (scale_of (inject_Z w) (inject_Z h)) in
  side == inject_Z a ∧ Number.to_unsigned_long side = a.
Proof.
  intros [Ha0 Ha] Hw Hh Hm side.
  assert (Hs : side == inject_Z a).
  { unfold side, Number.mul. rewrite (round_comp _ (inject_Z a)).
    - apply round_Z. lia.
    - rewrite scale_of_small by assumption. ring. }
  split; [exact Hs|].
  assert (H0 : 0 <= inject_Z a) by (change 0 with (inject_Z 0); rewrite <- Zle_Qle; lia).
  assert (H1 : inject_Z a < 4294967296).
  { change 4294967296 with (inject_Z (2 ^ 32)). rewrite <- Zlt_Qlt. exact Ha. }
  rewrite to_unsigned_long_floor by (rewrite Hs; assumption).
  rewrite Hs. apply Qfloor_Z.
Qed.

(** The canvas of an image, side by side. *)
Lemma scaled_canvas_sides (img : Dom.Image) :
  (Dom.width img < 2 ^ 32)%N → (Dom.height img < 2 ^ 32)%N →
  let w := Z.of_N (Dom.width img) in
  let h := Z.of_N (Dom.height img) in
  let m := Z.max w h in
  let canvas := scaled_canvas img in
  let W := Dom.canvas_width canvas in
  let H := Dom.canvas_height canvas in
  (∃ dw dh,
      Dom.drawn canvas
      = [ {| Dom.img := img; Dom.dx := 0; Dom.dy := 0;
             Dom.dw := dw; Dom.dh := dh |} ]
      ∧ 0 <= dw ∧ 0 <= dh ∧ W = Qfloor dw ∧ H = Qfloor dh)
  ∧ ((m <= 800)%Z → W = w ∧ H = h)
  ∧ ((800 < m)%Z →
      (W * m <= 800 * w)%Z ∧ (800 * w <= (W + 1) * m)%Z
      ∧ (H * m <= 800 * h)%Z ∧ (800 * h <= (H + 1) * m)%Z).
Proof.
  intros Hw32 Hh32 w h m canvas W H.
  assert (Hw : (0 <= w < 2 ^ 32)%Z) by (unfold w; lia).
  assert (Hh : (0 <= h < 2 ^ 32)%Z) by (unfold h; lia).
  subst W H canvas. unfold scaled_canvas, of_N. simpl. fold w h.
  destruct (Z_le_gt_dec m 800) as [Hm|Hm].
  - destruct (scaled_side_small w w h Hw (proj1 Hw) (proj1 Hh) Hm) as [Hs1 Hp1].
    destruct (scaled_side_small h w h Hh (proj1 Hw) (proj1 Hh) Hm) as [Hs2 Hp2].
    cbv zeta in Hs1, Hp1, Hs2, Hp2.
    assert (H0w : 0 <= inject_Z w) by (change 0 with (inject_Z 0); rewrite <- Zle_Qle; lia).
    assert (H0h : 0 <= inject_Z h) by (change 0 with (inject_Z 0); rewrite <- Zle_Qle; lia).
    split; [|split; [intros _; split; assumption|lia]].
    eexists _, _. split; [reflexivity|].
    split; [rewrite Hs1; exact H0w|]. split; [rewrite Hs2; exact H0h|].
    split.
    + rewrite Hp1, Hs1. symmetry. apply Qfloor_Z.
    + rewrite Hp2, Hs2. symmetry. apply Qfloor_Z.
  - assert (Hm' : (800 < Z.max w h < 2 ^ 32)%Z) by (fold m; lia).
    destruct (scaled_side w w h ltac:(lia) Hm') as (Hd1 & Hp1 & Hl1 & Hu1).
    destruct (scaled_side h w h ltac:(lia) Hm') as (Hd2 & Hp2 & Hl2 & Hu2).
    cbv zeta in Hd1, Hp1, Hl1, Hu1, Hd2, Hp2, Hl2, Hu2. fold m in Hl1, Hu1, Hl2, Hu2.
    split; [|split; [lia|intros _; repeat split; assumption]].
    eexists _, _. split; [reflexivity|]. repeat split; assumption.
Qed.

End Scaling.

Section Upload_pipeline.

Context (env : Env).

Lemma compress_Ok (file : Dom.File) (base64 : string) :
  compress env file = Ok base64 →
  ∃ src img,
    readAsDataURL env file = Some src ∧ decode env src = Some img
    ∧ base64 = toDataURL env (scaled_canvas img) "image/jpeg" JPEG_QUALITY
    ∧ (Dom.size file ≤ MAX_FILE_SIZE)%Z.
Proof.
  unfold compress. destruct (Z.ltb_spec MAX_FILE_SIZE (Dom.size file)); [done|].
  repeat case_match; intros; simplify_eq. eauto 10.
Qed.

Ltac new_events :=
  first
    [ exists []; split; [by rewrite app_nil_r|]
    | eexists; split; [rewrite <- ?app_assoc; reflexivity|] ].

(** The events one call of [processText] adds to the trace. *)
Lemma processText_events (text lang : string) (s : Sys) :
  ∃ new,
    trace (snd (processText env text lang s)) = trace s ++ new
    ∧ awaited new = true
    ∧ length (sent new)
      = if Str.truthy (apiKey (gptConfig s)) then 1%nat else 0%nat.
Proof.
  rewrite processText_run. cbv zeta.
  destruct (Str.truthy _); simpl; [|by new_events].
  repeat case_match; simplify_eq; simpl;
    try match goal with
      | |- context [addTranslation ?t ?s0] =>
          destruct (addTranslation_frame t s0) as (_ & _ & -> & _)
      end;
    simpl; by new_events.
Qed.

(** The events one call of [processFile] adds to the trace: nothing
    without an API key; else the settling of [compressImage], followed,
    when it produced an image, by the OCR request and what comes after. *)
Lemma processFile_events (file : Dom.File) (lang : string) (s : Sys) :
  ∃ new,
    trace (snd (processFile env file lang s)) = trace s ++ new
    ∧ awaited new = true
    ∧ (length (sent new) ≤ 2)%nat
    ∧ (∀ t, fst (processFile env file lang s) = Ok t →
            length (sent new) = 2%nat)
    ∧ (sent new = []
       ∨ (∃ base64,
            sent new
            = [request_for (gptConfig s) (ocr_messages base64) ocr_options])
       ∨ ∃ base64 originalText,
           sent new
           = [request_for (gptConfig s) (ocr_messages base64) ocr_options;
              request_for (gptConfig s)
                (translation_messages lang originalText) no_options])
    ∧ (new = []
       ∨ (∃ e, new = [Compressed file (Throw e)])
       ∨ ∃ base64 rest,
           compress env file = Ok base64
           ∧ new = Compressed file (Ok base64)
                   :: Sent (request_for (gptConfig s) (ocr_messages base64)
                              ocr_options)
                   :: rest).
Proof.
  rewrite processFile_run. cbv zeta.
  destruct (negb _); simpl.
  { new_events. repeat split; auto with lia. done. }
  destruct (compress env file) as [base64|e] eqn:Hc; simpl.
  2: { new_events. simpl. repeat split; eauto with lia. done. }
  repeat case_match; simplify_eq; simpl;
    try match goal with
      | |- context [addTranslation ?t ?s0] =>
          destruct (addTranslation_frame t s0) as (_ & _ & -> & _)
      end;
    simpl; new_events; simpl;
    (split; [done|]); (split; [lia|]); (split; [done|]);
    (split; [|right; right; eauto]);
    first [ by right; left; eexists | by right; right; eexists _, _ ].
Qed.

(** C2, as the code has it: [processText] issues one request when an API
    key is configured and none otherwise; [processFile] issues at most two
    requests, the OCR request and then the translation request, and exactly
    these two when it returns.  Each request is awaited before anything else
    is sent. *)
Theorem pipeline_requests (text : string) (file : Dom.File) (lang : string)
  (s : Sys) :
  (∃ new,
     trace (snd (processText env text lang s)) = trace s ++ new
     ∧ awaited new = true
     ∧ length (sent new)
       = if Str.truthy (apiKey (gptConfig s)) then 1%nat else 0%nat)
  ∧ (∃ new,
       trace (snd (processFile env file lang s)) = trace s ++ new
       ∧ awaited new = true
       ∧ (length (sent new) ≤ 2)%nat
       ∧ (∀ t, fst (processFile env file lang s) = Ok t →
               length (sent new) = 2%nat)
       ∧ (sent new = []
          ∨ (∃ base64,
               sent new
               = [request_for (gptConfig s) (ocr_messages base64) ocr_options])
          ∨ ∃ base64 originalText,
              sent new
              = [request_for (gptConfig s) (ocr_messages base64) ocr_options;
                 request_for (gptConfig s)
                   (translation_messages lang originalText) no_options])).
Proof.
  split; [apply processText_events|].
  destruct (processFile_events file lang s)
    as (new & H1 & H2 & H3 & H4 & H5 & _).
  eauto 10.
Qed.

(** C4, as the code has it: whenever [processFile] issues a request,
    [compressImage] has settled before with the data URL of a JPEG, and the
    first request is the OCR request, whose user message carries that data
    URL.  The JPEG is taken at quality 0.6 from a canvas on which the image
    was drawn from the origin, over the whole canvas.  The sides of the
    canvas are whole pixels: they are those of the image when neither
    exceeds 800; in general a side is the side of the image times
    [scale = min(1, 800 / max(width, height))], less a part of a pixel: at
    most that product and at least the product less one.  Neither side
    exceeds 800, and the ratio of the sides is that of the image up to the
    lost part of a pixel. *)
Theorem processFile_uploads_scaled_image (file : Dom.File) (lang : string)
  (s : Sys) :
  (∀ src img, decode env src = Some img →
     (Dom.width img < 2 ^ 32)%N ∧ (Dom.height img < 2 ^ 32)%N) →
  let s' := snd (processFile env file lang s) in
  sent (trace s') ≠ sent (trace s) →
  ∃ src img base64 ocr rest,
    readAsDataURL env file = Some src ∧ decode env src = Some img
    ∧ base64 = toDataURL env (scaled_canvas img) "image/jpeg" (6 # 10)
    ∧ trace s' = trace s ++ Compressed file (Ok base64) :: Sent ocr :: rest
    ∧ ocr = request_for (gptConfig s) (ocr_messages base64) ocr_options
    ∧ Api.messages (Api.payload ocr)
      = [ {| Api.role := "system"; Api.body := Api.Text ocr_prompt |};
          {| Api.role := "user";
             Api.body := Api.Parts
               [ Api.text "请提取这张图片中的所有文字，保持原有格式：";
                 Api.image_url base64 ] |} ]
    ∧ let w := Z.of_N (Dom.width img) in
      let h := Z.of_N (Dom.height img) in
      let m := Z.max w h in
      let canvas := scaled_canvas img in
      let W := Dom.canvas_width canvas in
      let H := Dom.canvas_height canvas in
      (∃ dw dh,
          Dom.drawn canvas
          = [ {| Dom.img := img; Dom.dx := 0; Dom.dy := 0;
                 Dom.dw := dw; Dom.dh := dh |} ]
          ∧ W = Qfloor dw ∧ H = Qfloor dh)
      ∧ (0 ≤ W ≤ 800)%Z ∧ (0 ≤ H ≤ 800)%Z
      ∧ ((m ≤ 800)%Z → W = w ∧ H = h)
      ∧ ((0 < m)%Z →
         let scale := Qmin 1 (800 / inject_Z m) in
         (inject_Z w * scale - 1 <= inject_Z W)%Q
         ∧ (inject_Z W <= inject_Z w * scale)%Q
         ∧ (inject_Z h * scale - 1 <= inject_Z H)%Q
         ∧ (inject_Z H <= inject_Z h * scale)%Q)
      ∧ (- m ≤ W * h - H * w ≤ m)%Z.
Proof.
  intros Hlong s' Hsent. subst s'.
  destruct (processFile_events file lang s)
    as (new & Htrace & _ & _ & _ & _ & [->|[[e ->]|(base64 & rest & Hc & ->)]]).
  - by rewrite Htrace, app_nil_r in Hsent.
  - rewrite Htrace, sent_app in Hsent. simpl in Hsent.
    by rewrite app_nil_r in Hsent.
  - destruct (compress_Ok _ _ Hc) as (src & img & Hsrc & Himg & Hb & _).
    exists src, img, base64,
      (request_for (gptConfig s) (ocr_messages base64) ocr_options), rest.
    split; [done|]. split; [done|]. split; [done|]. split; [done|].
    split; [done|]. split; [done|]. cbv zeta.
    destruct (Hlong _ _ Himg) as [Hw32 Hh32].
    destruct (scaled_canvas_sides img Hw32 Hh32)
      as ((dw & dh & Hd & Hdw & Hdh & HW & HH) & Hsmall & Hlarge).
    cbv zeta in Hd, HW, HH, Hsmall, Hlarge.
    set (w := Z.of_N (Dom.width img)) in *.
    set (h := Z.of_N (Dom.height img)) in *.
    set (m := Z.max w h) in *.
    set (W := Dom.canvas_width (scaled_canvas img)) in *.
    set (H := Dom.canvas_height (scaled_canvas img)) in *.
    assert (Hw : (0 ≤ w)%Z) by (unfold w; lia).
    assert (Hh : (0 ≤ h)%Z) by (unfold h; lia).
    assert (HW0 : (0 ≤ W)%Z).
    { rewrite HW. change 0%Z with (Qfloor 0). by apply Qfloor_resp_le. }
    assert (HH0 : (0 ≤ H)%Z).
    { rewrite HH. change 0%Z with (Qfloor 0). by apply Qfloor_resp_le. }
    split; [by exists dw, dh|].
    destruct (Z_le_gt_dec m 800) as [Hm|Hm].
    + destruct (Hsmall Hm) as [EW EH].
      split; [lia|]. split; [lia|]. split; [done|]. split; [|lia].
      intros Hm0. set (scale := Qmin 1 (800 / inject_Z m)).
      assert (Hscale : (scale == 1)%Q).
      { apply Q.min_l. apply Qle_shift_div_l.
        - change 0%Q with (inject_Z 0). rewrite <- Zlt_Qlt. exact Hm0.
        - change 800%Q with (inject_Z 800). rewrite Qmult_1_l, <- Zle_Qle.
          exact Hm. }
      rewrite Hscale, EW, EH. repeat split; lra.
    + destruct (Hlarge ltac:(lia)) as (L1 & U1 & L2 & U2).
      assert (Hwm : (w ≤ m)%Z) by (unfold m; lia).
      assert (Hhm : (h ≤ m)%Z) by (unfold m; lia).
      split; [nia|]. split; [nia|]. split; [lia|]. split.
      * intros Hm0. set (scale := Qmin 1 (800 / inject_Z m)).
        assert (Hmq : (800 < inject_Z m)%Q).
        { change 800%Q with (inject_Z 800). rewrite <- Zlt_Qlt. lia. }
        assert (Hscale : (scale == 800 / inject_Z m)%Q).
        { apply Q.min_r. apply Qle_shift_div_r; lra. }
        assert (Hx : (800 / inject_Z m * inject_Z m == 800)%Q) by (field; lra).
        rewrite Hscale. set (x := (800 / inject_Z m)%Q) in *.
        rewrite Zle_Qle in L1, U1, L2, U2.
        rewrite !inject_Z_mult in L1, U1, L2, U2.
        rewrite inject_Z_plus in U1, U2.
        change (inject_Z 800) with 800%Q in *.
        change (inject_Z 1) with 1%Q in *.
        set (mq := inject_Z m) in *. set (wq := inject_Z w) in *.
        set (hq := inject_Z h) in *. set (Wq := inject_Z W) in *.
        set (Hq := inject_Z H) in *.
        assert (E1 : (wq * x * mq == 800 * wq)%Q) by (rewrite <- Hx; ring).
        assert (E2 : (hq * x * mq == 800 * hq)%Q) by (rewrite <- Hx; ring).
        assert (Hmq0 : (0 < mq)%Q) by lra.
        clearbody x.
        repeat split.
        -- destruct (Qlt_le_dec Wq (wq * x - 1)) as [C|C]; [exfalso|exact C].
           assert (0 < (wq * x - 1 - Wq) * mq)%Q by (apply Qmult_lt_0_compat; lra).
           lra.
        -- destruct (Qlt_le_dec (wq * x) Wq) as [C|C]; [exfalso|exact C].
           assert (0 < (Wq - wq * x) * mq)%Q by (apply Qmult_lt_0_compat; lra).
           lra.
        -- destruct (Qlt_le_dec Hq (hq * x - 1)) as [C|C]; [exfalso|exact C].
           assert (0 < (hq * x - 1 - Hq) * mq)%Q by (apply Qmult_lt_0_compat; lra).
           lra.
        -- destruct (Qlt_le_dec (hq * x) Hq) as [C|C]; [exfalso|exact C].
           assert (0 < (Hq - hq * x) * mq)%Q by (apply Qmult_lt_0_compat; lra).
           lra.
      * assert (P1 : (W * m * h ≤ 800 * w * h)%Z)
          by (apply Z.mul_le_mono_nonneg_r; lia).
        assert (P2 : (800 * h * w ≤ (H + 1) * m * w)%Z)
          by (apply Z.mul_le_mono_nonneg_r; lia).
        assert (P3 : (H * m * w ≤ 800 * h * w)%Z)
          by (apply Z.mul_le_mono_nonneg_r; lia).
        assert (P4 : (800 * w * h ≤ (W + 1) * m * h)%Z)
          by (apply Z.mul_le_mono_nonneg_r; lia).
        split; nia.
Qed.

End Upload_pipeline.

(** ** Persistence *)

Lemma snoc_neq {A} (l : list A) (x : A) : l ++ [x] ≠ l.
Proof.
  intros H. apply (f_equal length) in H. rewrite length_app in H. simpl in H. lia.
Qed.

Lemma write_through_same (s s' : Sys) : same_store s s' → write_through s s'.
Proof.
  intros (Ht & Hg & Hl & Hc). unfold write_through, synced.
  rewrite Ht, Hg, Hl, Hc. done.
Qed.

Lemma write_through_frame (s s2 s' : Sys) :
  same_store s s2 → write_through s2 s' → write_through s s'.
Proof.
  intros (Ht & Hg & Hl & Hc). unfold write_through, synced.
  by rewrite Ht, Hg, Hl, Hc.
Qed.

Lemma setTranslations_write_through (update : list Translation → list Translation)
  (s : Sys) :
  write_through s (snd (setTranslations update s)).
Proof.
  unfold setTranslations.
  set (next := update (translations s)). set (s1 := set_translations next s).
  destruct (saveToStorage_fields "translations" next s1) as (_ & Ht & Hg & _).
  destruct (Dom.setItem "translations" (JSON_stringify next) (localStorage s1))
    as [st|] eqn:Hset.
  - destruct (saveToStorage_written _ _ _ _ Hset) as [Hl Hc].
    destruct (setItem_lookup _ _ _ _ Hset) as [Hk Hother].
    unfold write_through, synced. rewrite Ht, Hg, Hl, Hc. simpl.
    split; [intros k Hk1 _; by apply Hother|].
    split; [|done]. intros [_ Hcfg] _. split; [done|].
    by rewrite Hother.
  - destruct (saveToStorage_failed _ _ _ Hset) as [Hl Hc].
    unfold write_through. rewrite Hl, Hc. simpl.
    split; [done|]. split; [|done]. intros _ Hbad. by apply snoc_neq in Hbad.
Qed.

Lemma setGPTConfig_write_through (next : GPTConfig) (s : Sys) :
  write_through s (snd (setGPTConfig next s)).
Proof.
  unfold setGPTConfig. set (s1 := set_gptConfig next s).
  destruct (saveToStorage_fields "gptConfig" next s1) as (_ & Ht & Hg & _).
  destruct (Dom.setItem "gptConfig" (JSON_stringify next) (localStorage s1))
    as [st|] eqn:Hset.
  - destruct (saveToStorage_written _ _ _ _ Hset) as [Hl Hc].
    destruct (setItem_lookup _ _ _ _ Hset) as [Hk Hother].
    unfold write_through, synced. rewrite Ht, Hg, Hl, Hc. simpl.
    split; [intros k _ Hk2; by apply Hother|].
    split; [|done]. intros [Htr _] _. split; [|done].
    by rewrite Hother.
  - destruct (saveToStorage_failed _ _ _ Hset) as [Hl Hc].
    unfold write_through. rewrite Hl, Hc. simpl.
    split; [done|]. split; [|done]. intros _ Hbad. by apply snoc_neq in Hbad.
Qed.

(** A save that is not reported on the console has written its key and
    has left the other key and the other part of the state alone. *)
Lemma setTranslations_keys (update : list Translation → list Translation)
  (s : Sys) :
  let s' := snd (setTranslations update s) in
  console s' = console s →
  saved_translations s' ∧ gptConfig s' = gptConfig s
  ∧ Dom.getItem "gptConfig" (localStorage s')
    = Dom.getItem "gptConfig" (localStorage s).
Proof.
  cbv zeta. unfold setTranslations, saved_translations.
  set (next := update (translations s)). set (s1 := set_translations next s).
  destruct (saveToStorage_fields "translations" next s1) as (_ & Ht & Hg & _).
  destruct (Dom.setItem "translations" (JSON_stringify next) (localStorage s1))
    as [st|] eqn:Hset.
  - destruct (saveToStorage_written _ _ _ _ Hset) as [Hl Hc].
    destruct (setItem_lookup _ _ _ _ Hset) as [Hk Hother].
    rewrite Ht, Hg, Hl. simpl. intros _.
    split; [done|]. split; [done|]. by apply Hother.
  - destruct (saveToStorage_failed _ _ _ Hset) as [_ Hc].
    rewrite Hc. simpl. intros Hbad. by apply snoc_neq in Hbad.
Qed.

Lemma setGPTConfig_keys (next : GPTConfig) (s : Sys) :
  let s' := snd (setGPTConfig next s) in
  console s' = console s →
  saved_gptConfig s' ∧ translations s' = translations s
  ∧ Dom.getItem "translations" (localStorage s')
    = Dom.getItem "translations" (localStorage s).
Proof.
  cbv zeta. unfold setGPTConfig, saved_gptConfig.
  set (s1 := set_gptConfig next s).
  destruct (saveToStorage_fields "gptConfig" next s1) as (_ & Ht & Hg & _).
  destruct (Dom.setItem "gptConfig" (JSON_stringify next) (localStorage s1))
    as [st|] eqn:Hset.
  - destruct (saveToStorage_written _ _ _ _ Hset) as [Hl Hc].
    destruct (setItem_lookup _ _ _ _ Hset) as [Hk Hother].
    rewrite Ht, Hg, Hl. simpl. intros _.
    split; [done|]. split; [done|]. by apply Hother.
  - destruct (saveToStorage_failed _ _ _ Hset) as [_ Hc].
    rewrite Hc. simpl. intros Hbad. by apply snoc_neq in Hbad.
Qed.

Lemma keys_follow_same (s s' : Sys) : same_store s s' → keys_follow s s'.
Proof.
  intros (Ht & Hg & Hl & Hc) _. unfold saved_translations, saved_gptConfig.
  rewrite Ht, Hg, Hl. done.
Qed.

Lemma keys_follow_frame (s s2 s' : Sys) :
  same_store s s2 → keys_follow s2 s' → keys_follow s s'.
Proof.
  intros (Ht & Hg & Hl & Hc). unfold keys_follow, saved_translations,
    saved_gptConfig. by rewrite Ht, Hg, Hl, Hc.
Qed.

Lemma setTranslations_keys_follow (update : list Translation → list Translation)
  (s : Sys) :
  keys_follow s (snd (setTranslations update s)).
Proof.
  intros Hc. destruct (setTranslations_keys update s Hc) as (Hs & Hg & Hk).
  unfold saved_gptConfig. rewrite Hg, Hk. done.
Qed.

Lemma setGPTConfig_keys_follow (next : GPTConfig) (s : Sys) :
  keys_follow s (snd (setGPTConfig next s)).
Proof.
  intros Hc. destruct (setGPTConfig_keys next s Hc) as (Hs & Ht & Hk).
  unfold saved_translations. rewrite Ht, Hk. done.
Qed.

Section Persistence.

Context (env : Env).

(** Apart from the trace and the counters, a handler either changes nothing
    or ends with one [addTranslation]. *)
Lemma processText_store (text lang : string) (s : Sys) :
  let s' := snd (processText env text lang s) in
  same_store s s'
  ∨ ∃ t s2, same_store s s2 ∧ s' = snd (addTranslation t s2).
Proof.
  rewrite processText_run. cbv zeta.
  repeat case_match; simpl; try (by left);
    right; eexists _, _; (split; [|reflexivity]); done.
Qed.

Lemma processFile_store (file : Dom.File) (lang : string) (s : Sys) :
  let s' := snd (processFile env file lang s) in
  same_store s s'
  ∨ ∃ t s2, same_store s s2 ∧ s' = snd (addTranslation t s2).
Proof.
  rewrite processFile_run. cbv zeta.
  repeat case_match; simpl; try (by left);
    right; eexists _, _; (split; [|reflexivity]); done.
Qed.

(** C3, as the code has it: an update of the history or of the
    configuration changes the state in memory and saves its serialisation
    under its own key, [translations] respectively [gptConfig], leaving the
    other key and the other part of the state as they are; when [setItem]
    throws, the failure is reported on the console and storage stays as it
    was.  Every operation writes under these two keys only.  Over an
    operation that reports no failed save, a key that held the
    serialisation of its part of the state still does, and a part that
    changed has been saved: so storage that held the serialisation of the
    history and of the configuration before the operation holds that of the
    new ones after it.  Storage is in step with the state after the first
    render too, when no save failed. *)
Theorem storage_follows_state (op : Op) (s : Sys)
  (update : list Translation → list Translation) (next : GPTConfig) :
  (let s' := snd (setTranslations update s) in
   translations s' = update (translations s)
   ∧ gptConfig s' = gptConfig s
   ∧ Dom.getItem "gptConfig" (localStorage s')
     = Dom.getItem "gptConfig" (localStorage s)
   ∧ match Dom.setItem "translations" (JSON_stringify (translations s'))
             (localStorage s) with
     | Some st =>
         localStorage s' = st ∧ console s' = console s
         ∧ Dom.getItem "translations" (localStorage s')
           = Some (JSON_stringify (translations s'))
     | None =>
         localStorage s' = localStorage s
         ∧ console s' = console s ++ [save_failure]
     end)
  ∧ (let s' := snd (setGPTConfig next s) in
     gptConfig s' = next
     ∧ translations s' = translations s
     ∧ Dom.getItem "translations" (localStorage s')
       = Dom.getItem "translations" (localStorage s)
     ∧ match Dom.setItem "gptConfig" (JSON_stringify (gptConfig s'))
               (localStorage s) with
       | Some st =>
           localStorage s' = st ∧ console s' = console s
           ∧ Dom.getItem "gptConfig" (localStorage s')
             = Some (JSON_stringify (gptConfig s'))
       | None =>
           localStorage s' = localStorage s
           ∧ console s' = console s ++ [save_failure]
       end)
  ∧ write_through s (run env op s)
  ∧ keys_follow s (run env op s)
  ∧ ∀ history config st,
      console (mount history config st) = [] → synced (mount history config st).
Proof.
  split; [|split; [|split; [|split]]].
  - cbv zeta. rewrite setTranslations_translations. split; [done|].
    unfold setTranslations.
    set (s1 := set_translations (update (translations s)) s).
    destruct (saveToStorage_fields "translations" (update (translations s)) s1)
      as (_ & _ & Hg & _).
    split; [by rewrite Hg|].
    change (localStorage s) with (localStorage s1).
    change (console s) with (console s1).
    destruct (Dom.setItem _ _ (localStorage s1)) as [st|] eqn:Hset.
    + destruct (saveToStorage_written _ _ _ _ Hset) as [-> ->].
      destruct (setItem_lookup _ _ _ _ Hset) as [Hk Hother].
      split; [by apply Hother|]. done.
    + by destruct (saveToStorage_failed _ _ _ Hset) as [-> ->].
  - cbv zeta. unfold setGPTConfig.
    set (s1 := set_gptConfig next s).
    destruct (saveToStorage_fields "gptConfig" next s1) as (_ & Ht & -> & _).
    split; [done|]. split; [by rewrite Ht|]. simpl.
    change (localStorage s) with (localStorage s1).
    change (console s) with (console s1).
    destruct (Dom.setItem _ _ (localStorage s1)) as [st|] eqn:Hset.
    + destruct (saveToStorage_written _ _ _ _ Hset) as [-> ->].
      destruct (setItem_lookup _ _ _ _ Hset) as [Hk Hother].
      split; [by apply Hother|]. done.
    + by destruct (saveToStorage_failed _ _ _ Hset) as [-> ->].
  - destruct op as [t|i|config|text lang|file lang]; simpl.
    + apply setTranslations_write_through.
    + apply setTranslations_write_through.
    + apply setGPTConfig_write_through.
    + destruct (processText_store text lang s) as [H|(t & s2 & H & ->)].
      * by apply write_through_same.
      * eapply write_through_frame; [exact H|].
        apply setTranslations_write_through.
    + destruct (processFile_store file lang s) as [H|(t & s2 & H & ->)].
      * by apply write_through_same.
      * eapply write_through_frame; [exact H|].
        apply setTranslations_write_through.
  - destruct op as [t|i|config|text lang|file lang]; simpl.
    + apply setTranslations_keys_follow.
    + apply setTranslations_keys_follow.
    + apply setGPTConfig_keys_follow.
    + destruct (processText_store text lang s) as [H|(t & s2 & H & ->)].
      * by apply keys_follow_same.
      * eapply keys_follow_frame; [exact H|].
        apply setTranslations_keys_follow.
    + destruct (processFile_store file lang s) as [H|(t & s2 & H & ->)].
      * by apply keys_follow_same.
      * eapply keys_follow_frame; [exact H|].
        apply setTranslations_keys_follow.
  - intros history config st. unfold mount.
    set (s0 := mkSys history config st [] [] 0 0).
    set (s1 := snd (saveToStorage "translations" history s0)).
    destruct (saveToStorage_fields "translations" history s0) as (_ & Ht1 & Hg1 & _).
    destruct (saveToStorage_fields "gptConfig" config s1) as (_ & Ht2 & Hg2 & _).
    fold s1 in Ht1, Hg1.
    destruct (Dom.setItem "translations" (JSON_stringify history) (localStorage s0))
      as [st1|] eqn:Hset1.
    2: { destruct (saveToStorage_failed _ _ _ Hset1) as [_ Hc1]. fold s1 in Hc1.
         destruct (Dom.setItem "gptConfig" (JSON_stringify config) (localStorage s1))
           as [st2|] eqn:Hset2.
         - destruct (saveToStorage_written _ _ _ _ Hset2) as [_ Hc2].
           rewrite Hc2, Hc1. done.
         - destruct (saveToStorage_failed _ _ _ Hset2) as [_ Hc2].
           rewrite Hc2. intros Hbad. by destruct (console s1). }
    destruct (saveToStorage_written _ _ _ _ Hset1) as [Hl1 Hc1]. fold s1 in Hl1, Hc1.
    destruct (Dom.setItem "gptConfig" (JSON_stringify config) (localStorage s1))
      as [st2|] eqn:Hset2.
    2: { destruct (saveToStorage_failed _ _ _ Hset2) as [_ Hc2].
         rewrite Hc2. intros Hbad. by destruct (console s1). }
    destruct (saveToStorage_written _ _ _ _ Hset2) as [Hl2 Hc2].
    destruct (setItem_lookup _ _ _ _ Hset1) as [Hk1 _].
    destruct (setItem_lookup _ _ _ _ Hset2) as [Hk2 Hother2].
    intros _. unfold synced. rewrite Ht2, Hg2, Hl2, Ht1, Hg1. simpl.
    split; [|done]. rewrite Hother2 by done. by rewrite Hl1.
Qed.

End Persistence.

(** ** Scrolling *)

(** What the two handlers do: when the original pane scrolls, the
    [scrollTop] of the translated pane becomes the relative position of the
    original pane times the scroll range of the translated pane, and nothing
    else changes; likewise in the other direction.  The pane that was set
    then shows the relative position of the pane that scrolled, which is the
    quotient of its own [scrollTop] by its scroll range when that range is
    not zero. *)
Lemma syncScroll_positions (v : Viewer.State) :
  let o := Viewer.original v in
  let t := Viewer.translated v in
  let v1 := Viewer.handleOriginalScroll v in
  let v2 := Viewer.handleTranslatedScroll v in
  (Viewer.scrollTop (Viewer.translated v1)
   == Viewer.scrollTop o / (Viewer.scrollHeight o - Viewer.clientHeight o)
      * (Viewer.scrollHeight t - Viewer.clientHeight t))%Q
  ∧ (Viewer.scrollTop (Viewer.original v2)
     == Viewer.scrollTop t / (Viewer.scrollHeight t - Viewer.clientHeight t)
        * (Viewer.scrollHeight o - Viewer.clientHeight o))%Q
  ∧ Viewer.original v1 = o ∧ Viewer.translated v2 = t
  ∧ Viewer.scrollHeight (Viewer.translated v1) = Viewer.scrollHeight t
  ∧ Viewer.clientHeight (Viewer.translated v1) = Viewer.clientHeight t
  ∧ Viewer.scrollHeight (Viewer.original v2) = Viewer.scrollHeight o
  ∧ Viewer.clientHeight (Viewer.original v2) = Viewer.clientHeight o
  ∧ (¬ (Viewer.range t == 0)%Q →
     (Viewer.position (Viewer.translated v1) == Viewer.position o)%Q)
  ∧ (¬ (Viewer.range o == 0)%Q →
     (Viewer.position (Viewer.original v2) == Viewer.position t)%Q).
Proof.
  destruct v as [[ot oh oc] [tt th tc]].
  unfold Viewer.position, Viewer.range. simpl.
  repeat (split; [reflexivity|]).
  split; intros H; unfold Qdiv; rewrite <- Qmult_assoc, Qmult_inv_r by exact H;
    apply Qmult_1_r.
Qed.

(** A component that found its translation when it mounted keeps the panes
    in step: a scroll of either pane runs its handler. *)
Lemma scroll_attached (y : Q) (p : Viewer.State) :
  let c := Viewer.mount true p in
  Viewer.panes (Viewer.scrollOriginal y c)
  = Viewer.handleOriginalScroll
      {| Viewer.original := Viewer.scrolled y (Viewer.original p);
         Viewer.translated := Viewer.translated p |}
  ∧ Viewer.panes (Viewer.scrollTranslated y c)
    = Viewer.handleTranslatedScroll
        {| Viewer.original := Viewer.original p;
           Viewer.translated := Viewer.scrolled y (Viewer.translated p) |}.
Proof. done. Qed.

(** C7 fails on the code: the effect that attaches the scroll listeners runs
    once, after the first render.  When that render did not find the
    translation, no listener is attached, and none is attached later when
    the same component shows a translation.  Scrolling the original pane to
    150 of a range of 300 then leaves the translated pane at 0, where the
    claim puts it at 300. *)
Theorem scroll_listeners_missing :
  let c := Viewer.scrollOriginal 150 Sample.late_viewer in
  Viewer.shown Sample.late_viewer = true
  ∧ Viewer.listening Sample.late_viewer = false
  ∧ Viewer.original (Viewer.panes c) = Viewer.mkPane 150 700 400
  ∧ Viewer.translated (Viewer.panes c) = Viewer.mkPane 0 1000 400
  ∧ (150 / (700 - 400) * (1000 - 400) == 300)%Q
  ∧ ¬ (Viewer.scrollTop (Viewer.translated (Viewer.panes c))
       == 150 / (700 - 400) * (1000 - 400))%Q.
Proof.
  repeat (split; [by vm_compute|]). intros H. vm_compute in H. discriminate H.
Qed.

(** ** The model at work *)


Lemma history_atomic_witness :
  let s' := snd (processText (Sample.browser (λ _, Sample.offline)) "hi" "zh"
                   Sample.start) in
  translations s' = translations Sample.start
  ∧ localStorage s' = localStorage Sample.start.
Proof.
  destruct (history_atomic (Sample.browser (λ _, Sample.offline)) "hi"
              Sample.photo "zh" Sample.start) as (H & _).
  apply (H (Error "无法连接到服务器，请检查网络连接")).
  vm_compute. reflexivity.
Defined.

Lemma processFile_ocr_then_translate_witness :
  let env := Sample.browser Sample.net_ok in
  processFile env Sample.photo "zh" Sample.start
  = (Ok Sample.photo_entry, snd (processFile env Sample.photo "zh" Sample.start))
  ∧ targetLanguage Sample.photo_entry = "zh".
Proof.
  assert (H : processFile (Sample.browser Sample.net_ok) Sample.photo "zh"
                Sample.start
              = (Ok Sample.photo_entry,
                 snd (processFile (Sample.browser Sample.net_ok) Sample.photo
                        "zh" Sample.start))).
  { vm_compute. reflexivity. }
  split; [exact H|].
  exact (proj1 (proj2 (processFile_ocr_then_translate _ _ _ _ _ _ H))).
Defined.

Lemma oversized_image_rejected_witness :
  fst (processFile (Sample.browser Sample.net_ok) Sample.big_photo "zh"
         Sample.start)
  = Throw (Error "图片大小不能超过 5MB").
Proof.
  destruct (oversized_image_rejected (Sample.browser Sample.net_ok)
              Sample.big_photo "zh" Sample.start Sample.form)
    as (_ & H).
  - reflexivity.
  - destruct (H eq_refl) as (Hrun & _). rewrite Hrun. reflexivity.
Defined.

(** C9 as stated fails: without an API key a file of 6 MB is refused with
    the message about the key; [compressImage] is not reached. *)
Lemma oversized_image_without_key :
  let env := Sample.browser Sample.net_ok in
  (MAX_FILE_SIZE < Dom.size Sample.big_photo)%Z
  ∧ (Dom.size Sample.big_photo ≤ Upload.UI_MAX_SIZE)%Z
  ∧ processFile env Sample.big_photo "zh" Sample.no_key
    = (Throw (Error "请先配置 API Key"), Sample.no_key)
  ∧ fst (processFile env Sample.big_photo "zh" Sample.no_key)
    ≠ Throw (Error "图片大小不能超过 5MB")
  ∧ Upload.error (fst (Upload.onDrop env [Sample.big_photo] Sample.form
                         Sample.no_key))
    = Some "请先配置 API Key".
Proof.
  split; [reflexivity|]. split; [by vm_compute|].
  split; [vm_compute; reflexivity|].
  split; [vm_compute; discriminate|]. vm_compute. reflexivity.
Qed.

Lemma pipeline_requests_witness :
  ∃ new,
    trace (snd (processFile (Sample.browser Sample.net_ok) Sample.photo "zh"
                  Sample.start))
    = trace Sample.start ++ new
    ∧ length (sent new) = 2%nat.
Proof.
  destruct (pipeline_requests (Sample.browser Sample.net_ok) "hi" Sample.photo
              "zh" Sample.start) as (_ & new & H1 & _ & _ & H4 & _).
  exists new. split; [exact H1|].
  apply (H4 Sample.photo_entry). vm_compute. reflexivity.
Defined.

(** C2 as stated fails: a translation of text issues one request, a
    translation of an image issues two; neither issues three. *)
Lemma pipeline_not_three_requests :
  let env := Sample.browser Sample.net_ok in
  sent (trace Sample.start) = []
  ∧ length (sent (trace (snd (processText env "hi" "zh" Sample.start)))) = 1%nat
  ∧ length (sent (trace (snd (processFile env Sample.photo "zh" Sample.start))))
    = 2%nat
  ∧ length (sent (trace (snd (processText env "hi" "zh" Sample.start)))) ≠ 3%nat
  ∧ length (sent (trace (snd (processFile env Sample.photo "zh" Sample.start))))
    ≠ 3%nat.
Proof.
  split; [reflexivity|]. split; [by vm_compute|]. split; [by vm_compute|].
  split; vm_compute; discriminate.
Qed.

Lemma processFile_uploads_scaled_image_witness :
  let env := Sample.browser Sample.net_ok in
  sent (trace (snd (processFile env Sample.photo "zh" Sample.start)))
  ≠ sent (trace Sample.start)
  ∧ ∃ img, decode env "data:image/png;base64,photo.png" = Some img
           ∧ (0 ≤ Dom.canvas_width (scaled_canvas img) ≤ 800)%Z.
Proof.
  assert (Hlong : ∀ src img,
            decode (Sample.browser Sample.net_ok) src = Some img →
            (Dom.width img < 2 ^ 32)%N ∧ (Dom.height img < 2 ^ 32)%N).
  { intros src img [= <-]. split; reflexivity. }
  assert (H : sent (trace (snd (processFile (Sample.browser Sample.net_ok)
                                  Sample.photo "zh" Sample.start)))
              ≠ sent (trace Sample.start)).
  { vm_compute. discriminate. }
  split; [exact H|].
  destruct (processFile_uploads_scaled_image _ _ _ _ Hlong H)
    as (src & img & base64 & ocr & rest & Hsrc & Himg & _ & _ & _ & _ & _ & Hw & _).
  exists img. split; [|exact Hw].
  injection Hsrc as <-. exact Himg.
Defined.

(** C4 as stated fails: an image of 1078 by 333 is uploaded as the JPEG of
    a canvas of 799 by 247.  The scale is 800/1078, the product of 1078 and
    the scale is 800; the scale as a double is slightly less, the product
    as a double is just below 800, and the canvas keeps its 799 whole
    pixels.  The sides of the canvas are not in the ratio of the sides of
    the image. *)
Lemma scaled_image_loses_a_pixel :
  let env := Scenario.camera Sample.net_ok in
  let canvas := scaled_canvas Scenario.wide in
  let scale := Qmin 1 (800 / Qmax 1078 333) in
  fst (processFile env Sample.photo "zh" Sample.start) = Ok Sample.photo_entry
  ∧ decode env "data:image/png;base64,photo.png" = Some Scenario.wide
  ∧ head (sent (trace (snd (processFile env Sample.photo "zh" Sample.start))))
    = Some (request_for Sample.config
              (ocr_messages (toDataURL env canvas "image/jpeg" (6 # 10)))
              ocr_options)
  ∧ toDataURL env canvas "image/jpeg" (6 # 10) = "data:image/jpeg;base64,799x247"
  ∧ Dom.canvas_width canvas = 799%Z ∧ Dom.canvas_height canvas = 247%Z
  ∧ (1078 * scale == 800)%Q
  ∧ ¬ (inject_Z (Dom.canvas_width canvas) == 1078 * scale)%Q
  ∧ (Dom.canvas_width canvas * 333 ≠ Dom.canvas_height canvas * 1078)%Z.
Proof.
  split; [by vm_compute|]. split; [reflexivity|]. split; [by vm_compute|].
  split; [by vm_compute|].
  split; [by vm_compute|]. split; [by vm_compute|]. split; [by vm_compute|].
  split; [intros H; vm_compute in H; discriminate H|].
  vm_compute. discriminate.
Qed.

Lemma storage_follows_state_witness :
  synced (run (Sample.browser Sample.net_ok) (AddTranslation Sample.entry)
            Sample.start).
Proof.
  destruct (storage_follows_state (Sample.browser Sample.net_ok)
              (AddTranslation Sample.entry) Sample.start
              (λ prev, Sample.entry :: prev) Sample.config)
    as (_ & _ & (_ & H & _) & _ & Hm).
  apply H.
  - apply (Hm [] Sample.config Sample.unlimited). reflexivity.
  - vm_compute. reflexivity.
Defined.

(** C3 as stated fails: when the store is nearly full the save of the new
    history throws, the failure is only reported on the console, and the
    stored history stays the old one. *)
Lemma storage_stale_when_full :
  let s := mount [] Sample.config Sample.cramped in
  let s' := snd (addTranslation Sample.entry s) in
  synced s
  ∧ translations s' = [Sample.entry]
  ∧ Dom.getItem "translations" (localStorage s') = Some "[]"
  ∧ Dom.getItem "translations" (localStorage s')
    ≠ Some (JSON_stringify (translations s'))
  ∧ console s' = [save_failure].
Proof.
  split; [split; by vm_compute|]. split; [by vm_compute|].
  split; [by vm_compute|]. split; [vm_compute; discriminate|]. by vm_compute.
Qed.

(** * Further properties of the code *)

(** ** Refused responses *)

Lemma eqb_ci_sym (x y : ascii) : Str.eqb_ci x y = Str.eqb_ci y x.
Proof. unfold Str.eqb_ci. apply Ascii.eqb_sym. Qed.

Lemma prefix_ci_same (p w rest : string) :
  same_ci w p = true → Str.prefix_ci p (w ++ rest)%string = true.
Proof.
  revert w. induction p as [|y p IH]; intros [|x w]; simpl; try done.
  intros [Hxy Hw]%andb_true_iff. rewrite eqb_ci_sym, Hxy. simpl. by apply IH.
Qed.

Lemma contains_ci_prefix (p s : string) :
  Str.prefix_ci p s = true → Str.contains_ci p s = true.
Proof. intros H. destruct s; simpl in *; by rewrite H. Qed.

Lemma contains_ci_app (p before s : string) :
  Str.contains_ci p s = true → Str.contains_ci p (before ++ s)%string = true.
Proof.
  intros H. induction before as [|x before IH]; [done|].
  simpl. rewrite IH. apply orb_true_r.
Qed.

Lemma append_empty (a b : string) :
  (a ++ b)%string = "" → a = "" ∧ b = "".
Proof. by destruct a. Qed.

Lemma same_ci_empty (p : string) : same_ci "" p = true → p = "".
Proof. by destruct p. Qed.

(** The four patterns accept exactly the seven phrases. *)
Lemma rejectPatterns_phrases (f : string → bool) :
  existsb (λ pattern, existsb f (Regex.words pattern)) rejectPatterns
  = existsb f refusal_phrases.
Proof.
  vm_compute.
  destruct (f "I'm sorry"), (f "I am sorry"), (f "I cannot"), (f "I can't"),
    (f "unable to"), (f "not able to"), (f "not allowed to"); reflexivity.
Qed.

Lemma refused_iff (content : string) :
  existsb (λ pattern, Regex.test pattern content) rejectPatterns = true
  ↔ Exists (λ w, Str.contains_ci w content = true) refusal_phrases.
Proof.
  unfold Regex.test.
  rewrite (rejectPatterns_phrases (λ w, Str.contains_ci w content)).
  rewrite existsb_exists, Exists_exists.
  split; intros (w & Hw & H); exists w; split; try done;
    by apply list_elem_of_In.
Qed.

(** X1: [validateGPTResponse] returns the content of the first choice, and only
    when that content is not empty and holds none of the seven refusal
    phrases, whatever their case.  A missing or empty content is an invalid
    response; a content with one of the phrases is a refusal. *)
Theorem validateGPTResponse_accepts (response : option Api.ChatCompletion)
  (content : string) :
  (validateGPTResponse response = Ok content
   ↔ first_content response = Some content ∧ content ≠ ""
     ∧ Forall (λ w, Str.contains_ci w content = false) refusal_phrases)
  ∧ (validateGPTResponse response = Throw (Error "模型无法处理该请求，请重试")
     ↔ ∃ c, first_content response = Some c ∧ c ≠ ""
            ∧ Exists (λ w, Str.contains_ci w c = true) refusal_phrases)
  ∧ (validateGPTResponse response = Throw (Error "API 返回的响应格式无效")
     ↔ first_content response = None ∨ first_content response = Some "").
Proof.
  unfold validateGPTResponse.
  destruct (first_content response) as [c|].
  2: { split; [|split].
       - split; [intros [=]|intros ([=] & _)].
       - split; [intros [=]|intros (c & [=] & _)].
       - split; [by left|done]. }
  destruct c as [|x c].
  { cbn [Str.truthy negb]. split; [|split].
    - split; [intros [=]|by intros ([= <-] & Hne & _)].
    - split; [intros [=]|by intros (c & [= <-] & Hne & _)].
    - split; [by right|done]. }
  cbn [Str.truthy negb].
  destruct (existsb (λ pattern, Regex.test pattern (String x c)) rejectPatterns)
    eqn:Hrej.
  - apply refused_iff in Hrej. split; [|split].
    + split; [done|]. intros ([= <-] & _ & Hall).
      apply Exists_exists in Hrej as (w & Hw & Hin).
      rewrite Forall_forall in Hall. specialize (Hall w Hw). congruence.
    + split; [|done]. intros _. by exists (String x c).
    + split; [done|]. by intros [|].
  - assert (Hno : ¬ Exists (λ w, Str.contains_ci w (String x c) = true)
                      refusal_phrases).
    { intros H. apply refused_iff in H. congruence. }
    split; [|split].
    + split.
      * intros [= <-]. split; [done|]. split; [done|].
        apply Forall_forall. intros w Hw.
        destruct (Str.contains_ci w (String x c)) eqn:Hc; [|done].
        destruct Hno. apply Exists_exists. eauto.
      * by intros ([= <-] & _).
    + split; [done|]. by intros (c' & [= <-] & _ & H).
    + split; [done|]. by intros [|].
Qed.

Lemma validateGPTResponse_accepts_witness :
  validateGPTResponse (Some {| Api.choices :=
      Some [ {| Api.message := Some {| Api.content := Some "Bonjour" |} |} ] |})
  = Ok "Bonjour".
Proof.
  apply validateGPTResponse_accepts.
  split; [done|]. split; [done|].
  repeat constructor.
Defined.

Section Refusals.

Context (env : Env).

(** X2: A response is refused as soon as its text holds a refusal phrase
    anywhere, in any mix of upper and lower case: [processText] then throws
    the refusal message and the history stays as it was, even when the text
    is a proper translation. *)
Theorem refusal_phrase_anywhere (phrase before w after : string)
  (text lang : string) (s : Sys) (data : option Api.ChatCompletion) :
  phrase ∈ refusal_phrases →
  same_ci w phrase = true →
  first_content data = Some (before ++ w ++ after)%string →
  Str.truthy (apiKey (gptConfig s)) = true →
  axios_post env (requests s)
    (request_for (gptConfig s) (translation_messages lang text) no_options)
  = Axios.Fulfilled data →
  validateGPTResponse data = Throw (Error "模型无法处理该请求，请重试")
  ∧ fst (processText env text lang s)
    = Throw (Error "模型无法处理该请求，请重试")
  ∧ translations (snd (processText env text lang s)) = translations s.
Proof.
  intros Hin Hsame Hdata Hkey Hpost.
  assert (Hv : validateGPTResponse data
               = Throw (Error "模型无法处理该请求，请重试")).
  { apply validateGPTResponse_accepts; [exact ""|].
    exists (before ++ w ++ after)%string. split; [done|]. split.
    - intros Hempty. apply append_empty in Hempty as [_ Hempty].
      apply append_empty in Hempty as [-> _].
      apply same_ci_empty in Hsame as ->.
      unfold refusal_phrases in Hin.
      repeat (apply elem_of_cons in Hin as [?|Hin]; [done|]).
      by apply elem_of_nil in Hin.
    - apply Exists_exists. exists phrase. split; [done|].
      apply contains_ci_app, contains_ci_prefix. by apply prefix_ci_same. }
  split; [done|].
  rewrite processText_run, Hkey. cbn [negb]. cbv zeta. by rewrite Hpost, Hv.
Qed.

End Refusals.

(** ** Text translation and the two form handlers *)

Lemma find_cons_same (t : Translation) (l : list Translation) :
  Page.find (id t) (t :: l) = Some t.
Proof. unfold Page.find. simpl. by rewrite bool_decide_true. Qed.

Section Text.

Context (env : Env).

Ltac by_cases_of_run :=
  cbv zeta; repeat case_match; intros; simplify_eq; try done;
  match goal with
  | |- context [addTranslation ?t ?s0] =>
      by destruct (addTranslation_frame t s0) as (-> & _)
  end.

Lemma processText_history (text lang : string) (s s' : Sys)
  (r : Result Translation) :
  processText env text lang s = (r, s') →
  translations s'
  = match r with Ok t => t :: translations s | Throw _ => translations s end.
Proof. rewrite processText_run. by_cases_of_run. Qed.

Lemma processFile_history (file : Dom.File) (lang : string) (s s' : Sys)
  (r : Result Translation) :
  processFile env file lang s = (r, s') →
  translations s'
  = match r with Ok t => t :: translations s | Throw _ => translations s end.
Proof. rewrite processFile_run. by_cases_of_run. Qed.

(** X3: When [processText] returns, it has sent one request, whose user
    message is the given text and whose system message asks for a
    translation into the given language, and the record it returns is
    named 文本翻译, holds the text as original and the validated answer as
    translation, carries the two readings of the clock as id and timestamp,
    and is the newest entry of the history. *)
Theorem processText_returns (text lang : string) (s s' : Sys) (t : Translation) :
  processText env text lang s = (Ok t, s') →
  (∃ request data,
     trace s' = trace s ++ [ Sent request; Settled (Axios.Fulfilled data) ]
     ∧ request
       = request_for (gptConfig s) (translation_messages lang text) no_options
     ∧ Api.model (Api.payload request) = "gpt-4o-mini"
     ∧ (∃ rules,
          Api.messages (Api.payload request)
          = [ {| Api.role := "system";
                 Api.body := Api.Text
                   ("你是一位专业翻译。请将以下文本翻译成" ++ lang ++ rules)%string |};
              {| Api.role := "user"; Api.body := Api.Text text |} ])
     ∧ validateGPTResponse data = Ok (translatedText t))
  ∧ fileName t = "文本翻译" ∧ originalText t = text ∧ targetLanguage t = lang
  ∧ id t = pretty (Date_now env (clock s))
  ∧ timestamp t = toISOString env (S (clock s))
  ∧ translations s' = t :: translations s
  ∧ gptConfig s' = gptConfig s
  ∧ Str.truthy (apiKey (gptConfig s)) = true.
Proof.
  rewrite processText_run. cbv zeta.
  destruct (Str.truthy (apiKey (gptConfig s))); [|done]. cbn [negb].
  repeat case_match; intros; simplify_eq.
  match goal with
  | |- context [addTranslation ?t ?s0] =>
      destruct (addTranslation_frame t s0) as (-> & -> & -> & _)
  end.
  split; [|done]. do 2 eexists. split; [reflexivity|].
  split; [reflexivity|]. split; [reflexivity|]. split; [by eexists|]. done.
Qed.

(** X4: The text handler of the form.  A blank input only sets an error and
    calls nothing.  Otherwise the handler ends with the spinner off; on
    success it clears the error and goes to the page of the new record,
    which is the one that page finds; on failure it shows the message of
    the error, stays where it was and the history is unchanged.  The input
    text and the selected language are never changed. *)
Theorem handleTextTranslation_outcome (u : Upload.State) (s : Sys) :
  let u' := fst (Upload.handleTextTranslation env u s) in
  let s' := snd (Upload.handleTextTranslation env u s) in
  Upload.inputText u' = Upload.inputText u
  ∧ Upload.targetLanguage u' = Upload.targetLanguage u
  ∧ (Str.blank (Upload.inputText u) = true →
     u' = Upload.setError (Some "请输入需要翻译的文本") u ∧ s' = s)
  ∧ (Str.blank (Upload.inputText u) = false →
     Upload.isProcessing u' = false
     ∧ s' = snd (processText env (Upload.inputText u) (Upload.targetLanguage u) s)
     ∧ match fst (processText env (Upload.inputText u)
                    (Upload.targetLanguage u) s) with
       | Ok t =>
           Upload.error u' = None
           ∧ Upload.location u' = ("/translation/" ++ id t)%string
           ∧ Page.find (id t) (translations s') = Some t
       | Throw e =>
           Upload.error u'
           = Some match e with
                  | Error message => message
                  | NotAnError => "处理失败，请检查 API 设置和网络连接"
                  end
           ∧ Upload.location u' = Upload.location u
           ∧ translations s' = translations s
       end).
Proof.
  unfold Upload.handleTextTranslation.
  destruct (Str.blank (Upload.inputText u)) eqn:Hblank; cbv zeta.
  { simpl. repeat split; done. }
  change (Upload.inputText (Upload.setError None (Upload.setIsProcessing true u)))
    with (Upload.inputText u).
  change (Upload.targetLanguage
            (Upload.setError None (Upload.setIsProcessing true u)))
    with (Upload.targetLanguage u).
  destruct (processText env (Upload.inputText u) (Upload.targetLanguage u) s)
    as [r s1] eqn:Hrun.
  cbn [fst snd].
  split; [by destruct r as [?|[]]|]. split; [by destruct r as [?|[]]|].
  split; [done|]. intros _.
  split; [by destruct r as [?|[]]|]. split; [done|].
  destruct r as [t|e].
  - simpl. split; [done|]. split; [done|].
    rewrite (processText_history _ _ _ _ _ Hrun). apply find_cons_same.
  - rewrite (processText_history _ _ _ _ _ Hrun). by destruct e.
Qed.

(** X5: The drop handler of the form looks at the first file only, and does
    nothing when there is none.  For a file within the limit of the form it
    ends with the spinner off, shows the page of the new record on success
    and the message of the error on failure, where the history is
    unchanged. *)
Theorem onDrop_outcome (files : list Dom.File) (u : Upload.State) (s : Sys) :
  (files = [] → Upload.onDrop env files u s = (u, s))
  ∧ ∀ file rest, files = file :: rest →
      Upload.onDrop env files u s = Upload.onDrop env [file] u s
      ∧ ((Dom.size file ≤ Upload.UI_MAX_SIZE)%Z →
         let u' := fst (Upload.onDrop env files u s) in
         let s' := snd (Upload.onDrop env files u s) in
         Upload.isProcessing u' = false
         ∧ Upload.targetLanguage u' = Upload.targetLanguage u
         ∧ s' = snd (processFile env file (Upload.targetLanguage u) s)
         ∧ match fst (processFile env file (Upload.targetLanguage u) s) with
           | Ok t =>
               Upload.error u' = None
               ∧ Upload.location u' = ("/translation/" ++ id t)%string
               ∧ Page.find (id t) (translations s') = Some t
           | Throw e =>
               Upload.error u'
               = Some match e with
                      | Error message => message
                      | NotAnError => "处理失败，请检查 API 设置和网络连接"
                      end
               ∧ Upload.location u' = Upload.location u
               ∧ translations s' = translations s
           end).
Proof.
  split; [by intros ->|]. intros file rest ->. split; [done|].
  intros Hsize. unfold Upload.onDrop. cbn [head].
  rewrite (proj2 (Z.ltb_ge _ _) Hsize). cbv zeta.
  change (Upload.targetLanguage
            (Upload.setError None (Upload.setIsProcessing true u)))
    with (Upload.targetLanguage u).
  destruct (processFile env file (Upload.targetLanguage u) s)
    as [r s1] eqn:Hrun.
  cbn [fst snd].
  split; [by destruct r as [?|[]]|]. split; [by destruct r as [?|[]]|].
  split; [done|].
  destruct r as [t|e].
  - simpl. split; [done|]. split; [done|].
    rewrite (processFile_history _ _ _ _ _ Hrun). apply find_cons_same.
  - rewrite (processFile_history _ _ _ _ _ Hrun). by destruct e.
Qed.

End Text.

(** ** Images without text, and the size of what is uploaded *)

Section Extraction.

Context (env : Env).

(** X6: What [processFile] does with the answer to the OCR request.  An answer
    of white space only is reported as an image without text; the empty
    answer, which the OCR prompt asks for in that case, is reported as an
    invalid response.  Either way the translation request is not sent and
    the history is unchanged. *)
Theorem processFile_without_text (file : Dom.File) (lang : string) (s : Sys)
  (base64 : string) (data : option Api.ChatCompletion) :
  Str.truthy (apiKey (gptConfig s)) = true →
  compress env file = Ok base64 →
  axios_post env (requests s)
    (request_for (gptConfig s) (ocr_messages base64) ocr_options)
  = Axios.Fulfilled data →
  let r := fst (processFile env file lang s) in
  let s' := snd (processFile env file lang s) in
  (first_content data = Some "" →
   r = Throw (Error "API 返回的响应格式无效"))
  ∧ (∀ text, validateGPTResponse data = Ok text → Str.blank text = true →
       r = Throw (Error "未能从图片中提取到文字，请确保图片包含清晰的文本"))
  ∧ ((first_content data = Some ""
      ∨ ∃ text, validateGPTResponse data = Ok text ∧ Str.blank text = true) →
     sent (trace s')
     = sent (trace s)
       ++ [request_for (gptConfig s) (ocr_messages base64) ocr_options]
     ∧ translations s' = translations s).
Proof.
  intros Hkey Hc Hpost r s'. subst r s'.
  rewrite processFile_run, Hkey, Hc. cbn [negb]. cbv zeta. rewrite Hpost.
  split; [|split].
  - intros Hempty. unfold validateGPTResponse. by rewrite Hempty.
  - intros text -> ->. done.
  - intros [Hempty|(text & -> & ->)].
    + unfold validateGPTResponse. rewrite Hempty. simpl.
      rewrite !sent_app. simpl. by rewrite app_nil_r.
    + simpl. rewrite !sent_app. simpl. by rewrite app_nil_r.
Qed.

(** X7: [compressImage] succeeds only for a file of at most 5 MB that could be
    read and decoded and for which a canvas context was available, and the
    data URL it returns has at most 6990529 characters. *)
Theorem compressImage_bounds (file : Dom.File) (base64 : string) :
  compress env file = Ok base64 →
  (Dom.size file ≤ MAX_FILE_SIZE)%Z
  ∧ (compressedSize base64 ≤ MAX_FILE_SIZE)%Z
  ∧ (Z.of_nat (String.length base64) ≤ MAX_DATA_URL)%Z
  ∧ ∃ src img,
      readAsDataURL env file = Some src ∧ decode env src = Some img
      ∧ getContext env (blank_canvas (scaled_canvas img)) = true
      ∧ base64 = toDataURL env (scaled_canvas img) "image/jpeg" JPEG_QUALITY.
Proof.
  unfold compress.
  destruct (Z.ltb_spec MAX_FILE_SIZE (Dom.size file)) as [|Hsize]; [done|].
  destruct (readAsDataURL env file) as [src|] eqn:Hsrc; [|done].
  destruct (decode env src) as [img|] eqn:Himg; [|done].
  destruct (getContext env _) eqn:Hctx; [|done]. cbn [negb].
  destruct (Z.ltb_spec MAX_FILE_SIZE
              (compressedSize (toDataURL env (scaled_canvas img) "image/jpeg"
                                 JPEG_QUALITY))) as [|Hsmall]; [done|].
  intros [= <-].
  split; [done|]. split; [done|]. split; [|by exists src, img].
  set (b := toDataURL env _ _ _) in *.
  unfold compressedSize, of_nat, MAX_FILE_SIZE, MAX_DATA_URL in *.
  set (n := Z.of_nat (String.length b)) in *.
  pose proof (Qle_ceiling
    ((inject_Z n - inject_Z (Z.of_nat (String.length data_url_prefix)))
     * (75 # 100))) as Hceil.
  rewrite Zle_Qle in Hsmall.
  assert (Hq : (inject_Z n < inject_Z 6990530)%Q).
  { change (inject_Z (Z.of_nat (String.length data_url_prefix)))
      with (inject_Z 23) in *.
    change (inject_Z (5 * 1024 * 1024)) with (inject_Z 5242880) in Hsmall.
    assert (H1 : (inject_Z 23 == 23)%Q) by reflexivity.
    assert (H2 : (inject_Z 5242880 == 5242880)%Q) by reflexivity.
    assert (H3 : (inject_Z 6990530 == 6990530)%Q) by reflexivity.
    lra. }
  rewrite <- Zlt_Qlt in Hq. lia.
Qed.

End Extraction.

(** X8: [compressImage] never enlarges an image.  For sides below 2^32, as
    the sides of an image are: no side of the canvas exceeds that of the
    image; an image whose sides are at most 800 keeps its size; of a larger
    image the longer side becomes 799 or 800 pixels, for the product with
    the rounded scale can fall just below 800 and the canvas keeps whole
    pixels only; and a side more than 800 times shorter than the longer one
    is left with no pixel at all.  Both 799 and 800 occur. *)
Theorem scaled_canvas_size (img : Dom.Image) :
  (Dom.width img < 2 ^ 32)%N → (Dom.height img < 2 ^ 32)%N →
  let w := Z.of_N (Dom.width img) in
  let h := Z.of_N (Dom.height img) in
  let m := Z.max w h in
  let canvas := scaled_canvas img in
  let W := Dom.canvas_width canvas in
  let H := Dom.canvas_height canvas in
  ((0 ≤ W ≤ w)%Z ∧ (0 ≤ H ≤ h)%Z
   ∧ ((m ≤ 800)%Z → W = w ∧ H = h)
   ∧ ((800 < m)%Z → Z.max W H = 799%Z ∨ Z.max W H = 800%Z)
   ∧ ((800 < m)%Z → (800 * w < m)%Z → W = 0%Z)
   ∧ ((800 < m)%Z → (800 * h < m)%Z → H = 0%Z))
  ∧ Dom.canvas_width (scaled_canvas {| Dom.width := 1078; Dom.height := 333 |})
    = 799%Z
  ∧ Dom.canvas_width (scaled_canvas {| Dom.width := 1060; Dom.height := 333 |})
    = 800%Z.
Proof.
  intros Hw32 Hh32 w h m canvas W H.
  split; [|split; by vm_compute].
  destruct (scaled_canvas_sides img Hw32 Hh32)
    as ((dw & dh & _ & Hdw & Hdh & HW & HH) & Hsmall & Hlarge).
  cbv zeta in HW, HH, Hsmall, Hlarge. fold w h m canvas W H in HW, HH, Hsmall, Hlarge.
  assert (Hw : (0 ≤ w)%Z) by (unfold w; lia).
  assert (Hh : (0 ≤ h)%Z) by (unfold h; lia).
  assert (HW0 : (0 ≤ W)%Z).
  { rewrite HW. change 0%Z with (Qfloor 0). by apply Qfloor_resp_le. }
  assert (HH0 : (0 ≤ H)%Z).
  { rewrite HH. change 0%Z with (Qfloor 0). by apply Qfloor_resp_le. }
  destruct (Z_le_gt_dec m 800) as [Hm|Hm].
  - destruct (Hsmall Hm) as [EW EH]. repeat split; lia.
  - destruct (Hlarge ltac:(lia)) as (L1 & U1 & L2 & U2).
    assert (Hwm : (w ≤ m)%Z) by (unfold m; lia).
    assert (Hhm : (h ≤ m)%Z) by (unfold m; lia).
    assert (HWw : (W ≤ w)%Z) by nia.
    assert (HHh : (H ≤ h)%Z) by nia.
    assert (HW8 : (W ≤ 800)%Z) by nia.
    assert (HH8 : (H ≤ 800)%Z) by nia.
    split; [lia|]. split; [lia|]. split; [lia|]. split; [|split].
    + intros _.
      assert (Hlong : (799 ≤ W ∨ 799 ≤ H)%Z).
      { destruct (Z.max_spec w h) as [[_ E]|[_ E]]; fold m in E.
        - right. rewrite E in L2, U2. nia.
        - left. rewrite E in L1, U1. nia. }
      lia.
    + intros _ Hthin. nia.
    + intros _ Hthin. nia.
Qed.

(** ** The configured endpoint *)

Lemma strip_trailing_slash_snoc (b : string) :
  Str.strip_trailing_slash (b ++ "/")%string = b.
Proof.
  induction b as [|x b IH]; [done|].
  change ((String x b ++ "/")%string) with (String x (b ++ "/")%string).
  cbn [Str.strip_trailing_slash]. rewrite IH. by destruct b.
Qed.

Lemma strip_trailing_slash_id (u : string) :
  (∀ b, u ≠ (b ++ "/")%string) → Str.strip_trailing_slash u = u.
Proof.
  induction u as [|x u IH]; [done|]. intros Hno.
  cbn [Str.strip_trailing_slash]. destruct u as [|y u].
  - destruct (Ascii.eqb_spec x "/") as [->|]; [|done].
    by destruct (Hno "").
  - f_equal. apply IH. intros b Hb. apply (Hno (String x b)).
    simpl. by rewrite Hb.
Qed.

(** X9: [updateGPTConfig] keeps the API key and drops one trailing slash of the
    base URL, and only that, so that the requests made afterwards go to the
    base URL followed by [/v1/chat/completions] with a single slash between
    them; a base URL without a trailing slash is kept as it is.  The history
    is not touched. *)
Theorem updateGPTConfig_endpoint (config : GPTConfig) (s : Sys)
  (messages : list Api.ChatMessage) (options : Options) :
  let s' := snd (updateGPTConfig config s) in
  apiKey (gptConfig s') = apiKey config
  ∧ translations s' = translations s
  ∧ (∀ b, baseUrl config = (b ++ "/")%string →
       baseUrl (gptConfig s') = b
       ∧ Api.url (request_for (gptConfig s') messages options)
         = (b ++ "/v1/chat/completions")%string)
  ∧ ((∀ b, baseUrl config ≠ (b ++ "/")%string) →
     baseUrl (gptConfig s') = baseUrl config)
  ∧ Api.headers (request_for (gptConfig s') messages options)
    = [ ("Content-Type", "application/json");
        ("Authorization", ("Bearer " ++ apiKey config)%string) ].
Proof.
  unfold updateGPTConfig, setGPTConfig. cbv zeta.
  destruct (saveToStorage_fields "gptConfig"
              {| apiKey := apiKey config;
                 baseUrl := Str.strip_trailing_slash (baseUrl config) |}
              (set_gptConfig
                 {| apiKey := apiKey config;
                    baseUrl := Str.strip_trailing_slash (baseUrl config) |} s))
    as (_ & -> & -> & _).
  simpl. split; [done|]. split; [done|]. split; [|split; [|done]].
  - intros b ->. by rewrite strip_trailing_slash_snoc.
  - apply strip_trailing_slash_id.
Qed.

Section Shape.

Context (env : Env).

Lemma processText_sent (text lang : string) (s : Sys) :
  ∃ new,
    trace (snd (processText env text lang s)) = trace s ++ new
    ∧ (sent new = []
       ∨ sent new
         = [request_for (gptConfig s) (translation_messages lang text)
              no_options]).
Proof.
  rewrite processText_run. cbv zeta.
  destruct (negb _); simpl.
  { exists []. split; [by rewrite app_nil_r|by left]. }
  repeat case_match; simplify_eq; simpl;
    try match goal with
      | |- context [addTranslation ?t ?s0] =>
          destruct (addTranslation_frame t s0) as (_ & _ & -> & _)
      end;
    simpl; eexists; (split; [reflexivity|]); by right.
Qed.

(** X10: Every request of the pipeline goes to the configured base URL followed
    by [/v1/chat/completions], carries the configured key as bearer token
    and nothing else but the content type, has a timeout of 30 seconds and
    temperature 0.3, and is either a [gpt-4o-mini] request of at most 2000
    tokens whose messages are text only, or the [gpt-4o] OCR request of at
    most 1000 tokens. *)
Theorem pipeline_request_shape (text : string) (file : Dom.File)
  (lang : string) (s : Sys) (new : list Event) (req : Api.Request) :
  trace (snd (processText env text lang s)) = trace s ++ new
  ∨ trace (snd (processFile env file lang s)) = trace s ++ new →
  req ∈ sent new →
  Api.url req = (baseUrl (gptConfig s) ++ "/v1/chat/completions")%string
  ∧ Api.headers req
    = [ ("Content-Type", "application/json");
        ("Authorization", ("Bearer " ++ apiKey (gptConfig s))%string) ]
  ∧ Api.timeout req = 30000%Z
  ∧ Api.temperature (Api.payload req) = (3 # 10)%Q
  ∧ ((Api.model (Api.payload req) = "gpt-4o-mini"
      ∧ Api.max_tokens (Api.payload req) = 2000%Z
      ∧ Forall (λ m, ∃ t, Api.body m = Api.Text t)
          (Api.messages (Api.payload req)))
     ∨ (Api.model (Api.payload req) = "gpt-4o"
        ∧ Api.max_tokens (Api.payload req) = 1000%Z
        ∧ ∃ base64, Api.messages (Api.payload req) = ocr_messages base64)).
Proof.
  intros Hnew Hreq.
  assert (Hcases :
    (∃ t, req = request_for (gptConfig s) (translation_messages lang t)
                  no_options)
    ∨ ∃ b, req = request_for (gptConfig s) (ocr_messages b) ocr_options).
  { destruct Hnew as [Hnew|Hnew].
    - destruct (processText_sent text lang s) as (new' & Htr & Hsent).
      rewrite Htr in Hnew. apply app_inv_head in Hnew as <-.
      destruct Hsent as [Hs|Hs]; rewrite Hs in Hreq.
      + by apply elem_of_nil in Hreq.
      + apply list_elem_of_singleton in Hreq. eauto.
    - destruct (processFile_events env file lang s)
        as (new' & Htr & _ & _ & _ & Hsent & _).
      rewrite Htr in Hnew. apply app_inv_head in Hnew as <-.
      destruct Hsent as [Hs|[(b & Hs)|(b & o & Hs)]]; rewrite Hs in Hreq.
      + by apply elem_of_nil in Hreq.
      + apply list_elem_of_singleton in Hreq. eauto.
      + apply elem_of_cons in Hreq as [->|Hreq]; [eauto|].
        apply list_elem_of_singleton in Hreq. eauto. }
  destruct Hcases as [(t & ->)|(b & ->)]; simpl;
    (split; [done|]); (split; [done|]); (split; [done|]); (split; [done|]).
  - left. split; [done|]. split; [done|].
    unfold translation_messages. repeat constructor; by eexists.
  - right. split; [done|]. split; [done|]. by eexists.
Qed.

End Shape.

(** ** The history as a list, and the page that reads it *)

Lemma find_filter_other (i j : string) (l : list Translation) :
  j ≠ i → Page.find j (filter (λ t, id t ≠ i) l) = Page.find j l.
Proof.
  intros Hji. unfold Page.find. induction l as [|x l IH]; [done|].
  rewrite filter_cons. destruct (decide (id x ≠ i)) as [Hx|Hx]; simpl.
  - by rewrite IH.
  - rewrite IH. apply dec_stable in Hx.
    rewrite bool_decide_false; [done|]. congruence.
Qed.

Lemma find_filter_same (i : string) (l : list Translation) :
  Page.find i (filter (λ t, id t ≠ i) l) = None.
Proof.
  unfold Page.find. induction l as [|x l IH]; [done|].
  rewrite filter_cons. destruct (decide (id x ≠ i)) as [Hx|Hx]; [|done].
  simpl. by rewrite bool_decide_false.
Qed.

(** X11: How the two operations on the history combine: removing an id twice is
    removing it once, removals commute, removing the id of a record that was
    just added undoes the addition together with every older record of that
    id, and removing another id leaves the added record in front.  A
    removal never lengthens the history. *)
Theorem history_composition (t : Translation) (i j : string) (s : Sys) :
  let add t s := snd (addTranslation t s) in
  let rm i s := snd (removeTranslation i s) in
  translations (rm i (rm i s)) = translations (rm i s)
  ∧ translations (rm i (rm j s)) = translations (rm j (rm i s))
  ∧ translations (rm (id t) (add t s)) = translations (rm (id t) s)
  ∧ (id t ≠ i → translations (rm i (add t s)) = t :: translations (rm i s))
  ∧ (length (translations (rm i s)) ≤ length (translations s))%nat.
Proof.
  cbv zeta. unfold addTranslation, removeTranslation.
  rewrite !setTranslations_translations.
  split; [|split; [|split; [|split]]].
  - rewrite list_filter_filter. apply list_filter_iff. tauto.
  - rewrite !list_filter_filter. apply list_filter_iff. tauto.
  - rewrite filter_cons. by destruct (decide (id t ≠ id t)).
  - intros Hne. rewrite filter_cons. by destruct (decide (id t ≠ i)).
  - apply length_filter.
Qed.

(** X12: The page of a translation shows the first record of the history with
    the id of the route.  A record that was just added is the one its page
    shows; after a removal the page of the removed id finds nothing; the
    pages of all other ids are not affected by either operation.  What a
    page finds is a record of the history with the id asked for. *)
Theorem page_after_update (t x : Translation) (i j : string) (s : Sys) :
  let add t s := snd (addTranslation t s) in
  let rm i s := snd (removeTranslation i s) in
  Page.find (id t) (translations (add t s)) = Some t
  ∧ (j ≠ id t →
     Page.find j (translations (add t s)) = Page.find j (translations s))
  ∧ Page.find i (translations (rm i s)) = None
  ∧ (j ≠ i →
     Page.find j (translations (rm i s)) = Page.find j (translations s))
  ∧ (Page.find i (translations s) = Some x →
     id x = i ∧ x ∈ translations s).
Proof.
  cbv zeta. unfold addTranslation, removeTranslation.
  rewrite !setTranslations_translations.
  split; [apply find_cons_same|]. split.
  { intros Hj. unfold Page.find. simpl. by rewrite bool_decide_false. }
  split; [apply find_filter_same|]. split; [apply find_filter_other|].
  intros Hfind. apply find_some in Hfind as [Hin Hid].
  apply bool_decide_eq_true in Hid. split; [done|]. by apply list_elem_of_In.
Qed.

Section Ids.

Context (env : Env).

Lemma processText_Ok (text lang : string) (s s' : Sys) (t : Translation) :
  processText env text lang s = (Ok t, s') →
  id t = pretty (Date_now env (clock s))
  ∧ translations s' = t :: translations s
  ∧ clock s' = S (S (clock s)).
Proof.
  rewrite processText_run. cbv zeta.
  repeat case_match; intros; simplify_eq.
  match goal with
  | |- context [addTranslation ?t ?s0] =>
      destruct (addTranslation_frame t s0) as (-> & _ & _ & _ & ->)
  end.
  done.
Qed.

(** X13: The id of a record is the decimal reading of the clock in
    milliseconds.  Two translations made one after the other have the same
    id exactly when the clock read the same millisecond for both; then the
    page of that id shows the newer one only, and removing that id removes
    both. *)
Theorem ids_follow_the_clock (text1 lang1 text2 lang2 : string)
  (s s1 s2 : Sys) (t1 t2 : Translation) :
  processText env text1 lang1 s = (Ok t1, s1) →
  processText env text2 lang2 s1 = (Ok t2, s2) →
  translations s2 = t2 :: t1 :: translations s
  ∧ (id t1 = id t2
     ↔ Date_now env (clock s) = Date_now env (S (S (clock s))))
  ∧ (id t1 = id t2 →
     Page.find (id t1) (translations s2) = Some t2
     ∧ translations (snd (removeTranslation (id t2) s2))
       = translations (snd (removeTranslation (id t2) s))).
Proof.
  intros (Hid1 & Htr1 & Hclock1)%processText_Ok (Hid2 & Htr2 & _)%processText_Ok.
  rewrite Hclock1 in Hid2. rewrite Htr2, Htr1. split; [done|]. split.
  - rewrite Hid1, Hid2. split; [apply (inj pretty)|by intros ->].
  - intros Heq. split.
    + rewrite Heq. apply find_cons_same.
    + unfold removeTranslation. rewrite !setTranslations_translations, Htr2, Htr1.
      rewrite !filter_cons.
      destruct (decide (id t2 ≠ id t2)); [done|].
      destruct (decide (id t1 ≠ id t2)); [done|]. done.
Qed.

End Ids.

(** ** Storage over a whole session *)

Section Session.

Context (env : Env).

Lemma run_write_through (op : Op) (s : Sys) : write_through s (run env op s).
Proof.
  destruct op as [t|i|config|text lang|file lang]; simpl.
  - apply setTranslations_write_through.
  - apply setTranslations_write_through.
  - apply setGPTConfig_write_through.
  - destruct (processText_store env text lang s) as [H|(t & s2 & H & ->)].
    + by apply write_through_same.
    + eapply write_through_frame; [exact H|].
      apply setTranslations_write_through.
  - destruct (processFile_store env file lang s) as [H|(t & s2 & H & ->)].
    + by apply write_through_same.
    + eapply write_through_frame; [exact H|].
      apply setTranslations_write_through.
Qed.

Lemma save_step {T} `{ToJSON T} (key : string) (value : T) (s : Sys) :
  let s' := snd (saveToStorage key value s) in
  (∀ k, k ≠ key →
        Dom.getItem k (localStorage s') = Dom.getItem k (localStorage s))
  ∧ (console s' = console s →
     Dom.getItem key (localStorage s') = Some (JSON_stringify value))
  ∧ (console s' = console s ∨ console s' = console s ++ [save_failure]).
Proof.
  cbv zeta.
  destruct (Dom.setItem key (JSON_stringify value) (localStorage s))
    as [st|] eqn:Hset.
  - destruct (saveToStorage_written _ _ _ _ Hset) as [-> ->].
    destruct (setItem_lookup _ _ _ _ Hset) as [Hk Hother]. auto.
  - destruct (saveToStorage_failed _ _ _ Hset) as [-> ->].
    split; [done|]. split; [|by right].
    intros Hbad. by apply snoc_neq in Hbad.
Qed.

Lemma mount_storage (history : list Translation) (config : GPTConfig)
  (st : Dom.Storage) :
  let s := mount history config st in
  translations s = history ∧ gptConfig s = config
  ∧ (∀ k, k ≠ "translations" → k ≠ "gptConfig" →
          Dom.getItem k (localStorage s) = Dom.getItem k st)
  ∧ (console s = [] → synced s).
Proof.
  cbv zeta. unfold mount.
  set (s0 := mkSys history config st [] [] 0 0).
  set (s1 := snd (saveToStorage "translations" history s0)).
  destruct (saveToStorage_fields "translations" history s0)
    as (_ & Ht1 & Hg1 & _).
  destruct (saveToStorage_fields "gptConfig" config s1) as (_ & Ht2 & Hg2 & _).
  destruct (save_step "translations" history s0) as (Ho1 & Hk1 & Hc1).
  destruct (save_step "gptConfig" config s1) as (Ho2 & Hk2 & Hc2).
  fold s1 in Ht1, Hg1, Ho1, Hk1, Hc1.
  split; [by rewrite Ht2, Ht1|]. split; [by rewrite Hg2, Hg1|]. split.
  - intros k Hk Hk'. rewrite Ho2, Ho1 by done. done.
  - intros Hnil. unfold synced. rewrite Ht2, Hg2, Ht1, Hg1.
    assert (Hs1 : console s1 = []).
    { destruct Hc2 as [Hc2|Hc2]; rewrite Hc2 in Hnil; [done|].
      by destruct (console s1). }
    assert (Hs0 : console s1 = console s0) by (by rewrite Hs1).
    split.
    + rewrite Ho2 by done. by apply Hk1.
    + apply Hk2. by rewrite Hnil, Hs1.
Qed.

(** X14: Through any sequence of operations after the first render, local
    storage differs from what the session found only under the keys
    [translations] and [gptConfig]; and when no save was reported as failed
    on the console, storage holds the serialisation of the history and of
    the configuration that are in memory at the end. *)
Theorem session_storage (ops : list Op) (history : list Translation)
  (config : GPTConfig) (st : Dom.Storage) :
  let s := run_all env ops (mount history config st) in
  (∀ k, k ≠ "translations" → k ≠ "gptConfig" →
        Dom.getItem k (localStorage s) = Dom.getItem k st)
  ∧ (console s = [] → synced s).
Proof.
  cbv zeta. induction ops as [|op ops IH] using rev_ind.
  - simpl. by destruct (mount_storage history config st) as (_ & _ & ? & ?).
  - unfold run_all in *. rewrite foldl_app. simpl.
    set (s := foldl (λ s op, run env op s) (mount history config st) ops) in *.
    destruct IH as [IHk IHs].
    destruct (run_write_through op s) as (Hk & Hs & Hc).
    split.
    + intros k Hk1 Hk2. rewrite Hk by done. by apply IHk.
    + intros Hnil.
      destruct (decide (console (run env op s) = console s)) as [Heq|Hne].
      * apply Hs; [|done]. apply IHs. by rewrite <- Heq.
      * destruct (Hc Hne) as [_ Hbad]. rewrite Hbad in Hnil.
        by destruct (console s).
Qed.

End Session.

(** ** The settings dialog and the history list of the sidebar *)

(** X15: [validateAPIConfig] always ends with the spinner off, the step cleared
    and a verdict.  The verdict is a success exactly when the base URL
    (less a trailing slash) is a URL, the key is not empty and the test
    request is answered with status 200.  It sends at most one request, the
    ping for the configuration being edited, and none when the URL or the
    key is missing.  The edited configuration is left as it is. *)
Theorem validateAPIConfig_verdict (env : Sidebar.Env) (st : Sidebar.State) :
  let c := Sidebar.tempConfig st in
  let st' := fst (Sidebar.validateAPIConfig env st) in
  let pings := snd (Sidebar.validateAPIConfig env st) in
  Sidebar.isValidating st' = false ∧ Sidebar.validationStep st' = ""
  ∧ Sidebar.tempConfig st' = c
  ∧ Sidebar.showSettings st' = Sidebar.showSettings st
  ∧ Sidebar.pathname st' = Sidebar.pathname st
  ∧ (Sidebar.validationStatus st' = Some Sidebar.success
     ∨ Sidebar.validationStatus st' = Some Sidebar.error)
  ∧ (Sidebar.validationStatus st' = Some Sidebar.success
     ↔ Sidebar.valid_url env (Str.strip_trailing_slash (baseUrl c)) = true
       ∧ Str.truthy (apiKey c) = true
       ∧ Sidebar.post env (Sidebar.ping_for c) = Sidebar.Responded 200)
  ∧ (Sidebar.validationStatus st' = Some Sidebar.success →
     Sidebar.validationMessage st' = "API 配置验证成功")
  ∧ (pings = [] ∨ pings = [Sidebar.ping_for c])
  ∧ (pings = []
     ↔ Sidebar.valid_url env (Str.strip_trailing_slash (baseUrl c)) = false
       ∨ Str.truthy (apiKey c) = false).
Proof.
  cbv zeta. unfold Sidebar.validateAPIConfig, Sidebar.attempt.
  destruct (Sidebar.valid_url env _) eqn:Hurl; cbn [negb].
  2: { simpl. repeat split; auto; try done; by intros (? & _). }
  destruct (Str.truthy (apiKey (Sidebar.tempConfig st))) eqn:Hkey; cbn [negb].
  2: { simpl. repeat split; auto; try done; by intros (_ & ? & _). }
  destruct (Sidebar.post env _) as [status|e|e] eqn:Hpost.
  - destruct (Z.eqb_spec status 200) as [->|Hne]; simpl.
    + repeat split; auto; try done; by intros [|].
    + repeat split; auto; try done; try by intros [|].
      intros (_ & _ & [= ->]). done.
  - simpl. repeat split; auto; try done; try by intros [|].
    by intros (_ & _ & [=]).
  - simpl. repeat split; auto; try done; try by intros [|].
    by intros (_ & _ & [=]).
Qed.

(** X16: The message [validateAPIConfig] shows on failure.  The URL is checked
    before the key.  A response other than 200 is a failure.  An axios error
    is reported by its status, 401 as an invalid key and 404 as an invalid
    address, otherwise with the message of the server or, without one (as
    for a network failure), with the default message. *)
Theorem validateAPIConfig_message (env : Sidebar.Env) (st : Sidebar.State) :
  let c := Sidebar.tempConfig st in
  let url_ok := Sidebar.valid_url env (Str.strip_trailing_slash (baseUrl c)) in
  let st' := fst (Sidebar.validateAPIConfig env st) in
  (url_ok = false →
   Sidebar.validationMessage st' = "API 地址格式无效，请输入完整的 URL")
  ∧ (url_ok = true → Str.truthy (apiKey c) = false →
     Sidebar.validationMessage st' = "请输入 API Key")
  ∧ (url_ok = true → Str.truthy (apiKey c) = true →
     (∀ status, Sidebar.post env (Sidebar.ping_for c) = Sidebar.Responded status →
        status ≠ 200%Z →
        Sidebar.validationStatus st' = Some Sidebar.error
        ∧ Sidebar.validationMessage st' = "API 验证失败")
     ∧ (∀ e, Sidebar.post env (Sidebar.ping_for c) = Sidebar.Failed e →
          (Axios.status <$> Axios.response e = Some 401%Z →
           Sidebar.validationMessage st' = "API Key 无效")
          ∧ (Axios.status <$> Axios.response e = Some 404%Z →
             Sidebar.validationMessage st' = "API 接口地址无效")
          ∧ (Axios.response e = None →
             Sidebar.validationMessage st' = "API 验证失败，请检查配置"))
     ∧ (∀ message,
          Sidebar.post env (Sidebar.ping_for c)
          = Sidebar.Threw (Error message) →
          Sidebar.validationMessage st' = message)).
Proof.
  cbv zeta. unfold Sidebar.validateAPIConfig, Sidebar.attempt.
  split; [by intros ->|]. split; [by intros -> ->|].
  intros -> ->. cbn [negb]. split; [|split].
  - intros status -> Hne. by rewrite (proj2 (Z.eqb_neq _ _) Hne).
  - intros e ->. simpl. split; [|split].
    + intros ->. done.
    + intros ->. done.
    + intros ->. done.
  - intros message ->. done.
Qed.

Section Settings.

Context (env : Env).

(** X17: Saving the dialog stores the edited configuration whatever the verdict
    of the validation, also after further edits, and without a validation:
    the key as typed and the base URL less a trailing slash.  The pipeline
    then sends its requests to the very address the validation pings, with
    the same bearer token.  An empty key can be saved; [processText] and
    [processFile] then refuse to run. *)
Theorem handleSaveConfig_saves_unvalidated (st : Sidebar.State) (s : Sys)
  (messages : list Api.ChatMessage) (options : Options) (text lang : string)
  (file : Dom.File) :
  let st' := fst (Sidebar.handleSaveConfig st s) in
  let s' := snd (Sidebar.handleSaveConfig st s) in
  let c := Sidebar.tempConfig st in
  Sidebar.showSettings st' = false
  ∧ Sidebar.validationStatus st' = Sidebar.validationStatus st
  ∧ gptConfig s'
    = {| apiKey := apiKey c; baseUrl := Str.strip_trailing_slash (baseUrl c) |}
  ∧ translations s' = translations s
  ∧ Api.url (request_for (gptConfig s') messages options)
    = Sidebar.url (Sidebar.ping_for c)
  ∧ (∀ header, header.1 = "Authorization" →
       header ∈ Api.headers (request_for (gptConfig s') messages options)
       ↔ header ∈ Sidebar.headers (Sidebar.ping_for c))
  ∧ (Str.truthy (apiKey c) = false →
     fst (processText env text lang s') = Throw (Error "请先配置 API Key")
     ∧ fst (processFile env file lang s') = Throw (Error "请先配置 API Key")).
Proof.
  cbv zeta. unfold Sidebar.handleSaveConfig, updateGPTConfig, setGPTConfig.
  cbn [fst snd].
  set (next := {| apiKey := apiKey (Sidebar.tempConfig st);
                  baseUrl := Str.strip_trailing_slash
                               (baseUrl (Sidebar.tempConfig st)) |}).
  destruct (saveToStorage_fields "gptConfig" next (set_gptConfig next s))
    as (_ & Ht & Hg & _).
  set (s' := snd (saveToStorage "gptConfig" next (set_gptConfig next s))) in *.
  simpl in Ht, Hg.
  split; [done|]. split; [done|]. split; [done|]. split; [done|].
  rewrite Hg. split; [done|]. split.
  - intros [name value] Hname. simpl in Hname. subst name. simpl.
    rewrite !elem_of_cons, !elem_of_nil. split.
    + intros [[=]|[[= ->]|[]]]. by left.
    + intros [[= ->]|[[=]|[]]]. right. by left.
  - intros Hkey.
    rewrite processText_run, processFile_run, Hg. simpl. by rewrite Hkey.
Qed.

End Settings.

(** X18: Removing a record from the list never leaves the application on the
    page of the removed record: if that page was shown the sidebar goes
    home, otherwise it stays where it is; the page of the removed id would
    find nothing, the pages of the other ids find what they found. *)
Theorem handleRemove_leaves_page (i j : string) (st : Sidebar.State) (s : Sys) :
  let st' := fst (Sidebar.handleRemove i st s) in
  let s' := snd (Sidebar.handleRemove i st s) in
  Sidebar.pathname st' ≠ ("/translation/" ++ i)%string
  ∧ (Sidebar.pathname st = ("/translation/" ++ i)%string →
     Sidebar.pathname st' = "/")
  ∧ (Sidebar.pathname st ≠ ("/translation/" ++ i)%string → st' = st)
  ∧ Sidebar.tempConfig st' = Sidebar.tempConfig st
  ∧ Page.find i (translations s') = None
  ∧ (j ≠ i → Page.find j (translations s') = Page.find j (translations s))
  ∧ gptConfig s' = gptConfig s.
Proof.
  cbv zeta. unfold Sidebar.handleRemove.
  assert (Hs : translations (snd (removeTranslation i s))
               = filter (λ t, id t ≠ i) (translations s)
               ∧ gptConfig (snd (removeTranslation i s)) = gptConfig s).
  { unfold removeTranslation. rewrite setTranslations_translations.
    split; [done|]. unfold setTranslations.
    by destruct (saveToStorage_fields "translations"
                   (filter (λ t, id t ≠ i) (translations s))
                   (set_translations (filter (λ t, id t ≠ i) (translations s)) s))
      as (_ & _ & -> & _). }
  destruct Hs as [Ht Hg].
  destruct (decide (Sidebar.pathname st = ("/translation/" ++ i)%string))
    as [Hat|Hnot]; cbn [fst snd]; rewrite Ht.
  - split; [done|]. split; [done|]. split; [done|]. split; [done|].
    split; [apply find_filter_same|]. split; [apply find_filter_other|done].
  - split; [done|]. split; [done|]. split; [done|]. split; [done|].
    split; [apply find_filter_same|]. split; [apply find_filter_other|done].
Qed.

(** ** Language names *)

(** X19: Every language of the upload form has a distinct code, and the page of
    a translation shows for that code the name the form shows.  The sidebar
    shows the same name for every code but [ko], where its table has
    another one. *)
Theorem language_names (code name : string) :
  (code, name) ∈ Page.LANGUAGES →
  Page.lookup code Page.LANGUAGE_NAMES = Some name
  ∧ (code ≠ "ko" → Page.lookup code Sidebar.LANGUAGE_NAMES = Some name)
  ∧ (code = "ko" →
     Page.lookup code Sidebar.LANGUAGE_NAMES = Some "한国語"
     ∧ Page.lookup code Sidebar.LANGUAGE_NAMES ≠ Some name)
  ∧ NoDup (fst <$> Page.LANGUAGES).
Proof.
  intros Hin. unfold Page.LANGUAGES in Hin.
  assert (Hnd : NoDup (fst <$> Page.LANGUAGES)).
  { apply (bool_decide_unpack (NoDup (fst <$> Page.LANGUAGES))). by vm_compute. }
  repeat (apply elem_of_cons in Hin as [[= -> ->]|Hin];
          [ split; [by vm_compute|];
            split; [first [by intros _; vm_compute | by intros []]|];
            split; [|done];
            first [ by intros [=]
                  | intros _; split; [by vm_compute|vm_compute; by intros [=]] ]
          |]).
  by apply elem_of_nil in Hin.
Qed.

(** ** The further properties at work *)

Lemma refusal_phrase_anywhere_witness :
  fst (processText (Sample.browser Scenario.net_unable) "x" "en" Sample.start)
  = Throw (Error "模型无法处理该请求，请重试").
Proof.
  refine (proj1 (proj2 (refusal_phrase_anywhere
    (Sample.browser Scenario.net_unable) "unable to" "Sadly I was "
    "UNABLE TO" " attend." "x" "en" Sample.start
    (Some {| Api.choices :=
       Some [ {| Api.message :=
                   Some {| Api.content :=
                             Some "Sadly I was UNABLE TO attend." |} |} ] |})
    _ _ _ _ _))).
  - repeat constructor.
  - reflexivity.
  - reflexivity.
  - reflexivity.
  - reflexivity.
Defined.

Lemma processText_returns_witness :
  originalText Scenario.text_entry = "hi"
  ∧ translations (snd (processText (Sample.browser Sample.net_ok) "hi" "zh"
                         Sample.start))
    = Scenario.text_entry :: translations Sample.start.
Proof.
  assert (H : processText (Sample.browser Sample.net_ok) "hi" "zh" Sample.start
              = (Ok Scenario.text_entry,
                 snd (processText (Sample.browser Sample.net_ok) "hi" "zh"
                        Sample.start))).
  { vm_compute. reflexivity. }
  destruct (processText_returns _ _ _ _ _ _ H)
    as (_ & _ & Ho & _ & _ & _ & Ht & _).
  split; [exact Ho|exact Ht].
Defined.

Lemma handleTextTranslation_outcome_witness :
  Upload.isProcessing
    (fst (Upload.handleTextTranslation (Sample.browser Sample.net_ok)
            Scenario.text_form Sample.start))
  = false.
Proof.
  destruct (handleTextTranslation_outcome (Sample.browser Sample.net_ok)
              Scenario.text_form Sample.start) as (_ & _ & _ & H).
  destruct H as (H & _); [reflexivity|exact H].
Defined.

Lemma onDrop_outcome_witness :
  Upload.isProcessing
    (fst (Upload.onDrop (Sample.browser Sample.net_ok) [Sample.photo]
            Sample.form Sample.start))
  = false.
Proof.
  destruct (onDrop_outcome (Sample.browser Sample.net_ok) [Sample.photo]
              Sample.form Sample.start) as (_ & H).
  destruct (H Sample.photo [] eq_refl) as (_ & H').
  destruct H' as (H' & _); [by vm_compute|exact H'].
Defined.

Lemma processFile_without_text_witness :
  fst (processFile (Sample.browser Scenario.net_blank) Sample.photo "zh"
         Sample.start)
  = Throw (Error "未能从图片中提取到文字，请确保图片包含清晰的文本").
Proof.
  destruct (processFile_without_text (Sample.browser Scenario.net_blank)
              Sample.photo "zh" Sample.start "data:image/jpeg;base64,AAAA"
              (Some {| Api.choices :=
                 Some [ {| Api.message :=
                             Some {| Api.content := Some "  " |} |} ] |}))
    as (_ & H & _).
  - reflexivity.
  - reflexivity.
  - reflexivity.
  - apply (H "  "); reflexivity.
Defined.

Lemma compressImage_bounds_witness :
  (Z.of_nat (String.length "data:image/jpeg;base64,AAAA") ≤ MAX_DATA_URL)%Z.
Proof.
  destruct (compressImage_bounds (Sample.browser Sample.net_ok) Sample.photo
              "data:image/jpeg;base64,AAAA") as (_ & _ & H & _).
  - reflexivity.
  - exact H.
Defined.

Lemma scaled_canvas_size_witness :
  Z.max (Dom.canvas_width (scaled_canvas {| Dom.width := 1000; Dom.height := 500 |}))
        (Dom.canvas_height (scaled_canvas {| Dom.width := 1000; Dom.height := 500 |}))
  = 799%Z
  ∨ Z.max (Dom.canvas_width (scaled_canvas {| Dom.width := 1000; Dom.height := 500 |}))
          (Dom.canvas_height (scaled_canvas {| Dom.width := 1000; Dom.height := 500 |}))
    = 800%Z.
Proof.
  refine (proj1 (proj2 (proj2 (proj2 (proj1
    (scaled_canvas_size {| Dom.width := 1000; Dom.height := 500 |} _ _))))) _);
    reflexivity.
Defined.

Lemma updateGPTConfig_endpoint_witness :
  baseUrl (gptConfig (snd (updateGPTConfig
             {| apiKey := "k"; baseUrl := "https://api.example.com/" |}
             Sample.start)))
  = "https://api.example.com".
Proof.
  destruct (updateGPTConfig_endpoint
              {| apiKey := "k"; baseUrl := "https://api.example.com/" |}
              Sample.start [] no_options) as (_ & _ & H & _).
  apply (H "https://api.example.com"). reflexivity.
Defined.

Lemma pipeline_request_shape_witness :
  Api.timeout (request_for Sample.config (translation_messages "zh" "hi")
                 no_options)
  = 30000%Z.
Proof.
  refine (proj1 (proj2 (proj2 (pipeline_request_shape
    (Sample.browser Sample.net_ok) "hi" Sample.photo "zh" Sample.start
    [ Sent (request_for Sample.config (translation_messages "zh" "hi") no_options);
      Settled (Sample.net_ok 0) ] _ _ _)))).
  - left. vm_compute. reflexivity.
  - simpl. by left.
Defined.

Lemma history_composition_witness :
  translations (snd (removeTranslation "2"
                       (snd (addTranslation Sample.entry Scenario.history))))
  = Sample.entry
    :: translations (snd (removeTranslation "2" Scenario.history)).
Proof.
  apply (history_composition Sample.entry "2" "1" Scenario.history).
  discriminate.
Defined.

Lemma page_after_update_witness :
  Page.find "1" (translations (snd (removeTranslation "2" Scenario.history)))
  = Page.find "1" (translations Scenario.history).
Proof.
  apply (page_after_update Sample.entry Sample.entry "2" "1" Scenario.history).
  discriminate.
Defined.

Lemma ids_follow_the_clock_witness :
  let env := Scenario.frozen Sample.net_ok in
  let s1 := snd (processText env "a" "zh" Sample.start) in
  let s2 := snd (processText env "b" "zh" s1) in
  translations (snd (removeTranslation "1700000000000" s2))
  = translations (snd (removeTranslation "1700000000000" Sample.start)).
Proof.
  cbv zeta.
  assert (H1 : processText (Scenario.frozen Sample.net_ok) "a" "zh" Sample.start
    = (Ok (mkTranslation "1700000000000" "文本翻译" "2023-11-14T22:13:20.000Z"
             "a" "Hello" "zh"),
       snd (processText (Scenario.frozen Sample.net_ok) "a" "zh" Sample.start))).
  { vm_compute. reflexivity. }
  assert (H2 : processText (Scenario.frozen Sample.net_ok) "b" "zh"
                 (snd (processText (Scenario.frozen Sample.net_ok) "a" "zh"
                         Sample.start))
    = (Ok (mkTranslation "1700000000000" "文本翻译" "2023-11-14T22:13:20.000Z"
             "b" "你好" "zh"),
       snd (processText (Scenario.frozen Sample.net_ok) "b" "zh"
              (snd (processText (Scenario.frozen Sample.net_ok) "a" "zh"
                      Sample.start))))).
  { vm_compute. reflexivity. }
  destruct (ids_follow_the_clock _ _ _ _ _ _ _ _ _ _ H1 H2) as (_ & _ & H).
  destruct (H eq_refl) as [_ Hrm]. exact Hrm.
Defined.

Lemma session_storage_witness :
  synced (run_all (Sample.browser Sample.net_ok)
            [ ProcessText "hi" "zh"; RemoveTranslation "1700000000000";
              UpdateGPTConfig Sample.config ]
            (mount [] Sample.config Sample.unlimited)).
Proof.
  apply (session_storage (Sample.browser Sample.net_ok)
           [ ProcessText "hi" "zh"; RemoveTranslation "1700000000000";
             UpdateGPTConfig Sample.config ] [] Sample.config Sample.unlimited).
  by vm_compute.
Defined.

Lemma validateAPIConfig_verdict_witness :
  Sidebar.validationStatus
    (fst (Sidebar.validateAPIConfig Scenario.service Scenario.dialog))
  = Some Sidebar.success.
Proof.
  apply (validateAPIConfig_verdict Scenario.service Scenario.dialog).
  repeat split.
Defined.

Lemma validateAPIConfig_message_witness :
  Sidebar.validationMessage
    (fst (Sidebar.validateAPIConfig Scenario.unauthorized Scenario.dialog))
  = "API Key 无效".
Proof.
  destruct (validateAPIConfig_message Scenario.unauthorized Scenario.dialog)
    as (_ & _ & H).
  destruct (H eq_refl eq_refl) as (_ & H' & _).
  destruct (H' _ eq_refl) as (H401 & _). exact (H401 eq_refl).
Defined.

Lemma handleSaveConfig_saves_unvalidated_witness :
  fst (processText (Sample.browser Sample.net_ok) "hi" "zh"
         (snd (Sidebar.handleSaveConfig
                 (Sidebar.editApiKey "" Scenario.dialog) Sample.start)))
  = Throw (Error "请先配置 API Key").
Proof.
  destruct (handleSaveConfig_saves_unvalidated (Sample.browser Sample.net_ok)
              (Sidebar.editApiKey "" Scenario.dialog) Sample.start []
              no_options "hi" "zh" Sample.photo)
    as (_ & _ & _ & _ & _ & _ & H).
  destruct H as [H _]; [reflexivity|exact H].
Defined.

Lemma handleRemove_leaves_page_witness :
  Sidebar.pathname
    (fst (Sidebar.handleRemove "1700000000000" Scenario.dialog Sample.start))
  = "/".
Proof.
  destruct (handleRemove_leaves_page "1700000000000" "1" Scenario.dialog
              Sample.start) as (_ & H & _).
  apply H. reflexivity.
Defined.

Lemma language_names_witness :
  Page.lookup "ja" Page.LANGUAGE_NAMES = Some "日本語".
Proof.
  refine (proj1 (language_names "ja" "日本語" _)).
  do 2 apply list_elem_of_further. apply list_elem_of_here.
Defined.
